(** * Leveled logger over Go's standard [log] package

    Shallow embedding of [log.go] (package [log], the current implementation)
    and of [bkp/log1/log1.go] (the superseded integer-level implementation,
    in [Module Log1]).

    The two Go files are small; what they do is decided to a large extent by
    the two standard-library packages they call, [fmt] and [log].  Those are
    not part of the repository, so the first part of this file models the
    fragment of them that the logger reaches, following the behaviour the Go
    documentation describes.  What [fmt.Sprintf] returns for a format outside
    that fragment is not guessed: it is left to a component of the world. *)

From Stdlib Require Import ZArith NArith Ascii String DecimalString Lia.
From stdpp Require Import base option strings list.

Local Open Scope Z_scope.
Local Set Warnings "-register-all".

(* ================================================================= *)
(** ** Operands of the variadic [...interface{}] parameters *)

(** The operands a caller can pass: strings, integers, and slices of
    operands (the legacy file hands its whole argument slice to [Printf] as
    ONE operand, so slices are needed to model it). *)
Inductive Value : Type :=
| VString (s : string)
| VInt (n : Z)
| VSlice (vs : list Value).

(** [reflect.TypeOf(arg).String()] *)
Definition typeName (v : Value) : string :=
  match v with
  | VString _ => "string"
  | VInt _ => "int"
  | VSlice _ => "[]interface {}"
  end.

(* ================================================================= *)
(** ** Package [fmt]: the modelled fragment of [Sprintf] and [Sprint] *)

Definition isChar (c : ascii) (chars : string) : bool :=
  existsb (Ascii.eqb c) (list_ascii_of_string chars).

(** A directive is in the fragment when the byte after ['%'] is the verb
    itself: no flag, width, precision or argument index, an ASCII byte, and
    not one of the letter verbs whose output is not modelled here. *)
Definition plainVerb (c : ascii) : bool :=
  negb (isChar c "#0+- 123456789*.[")
  && (nat_of_ascii c <? 128)%nat
  && (isChar c "sdv"
      || negb (isChar c "abcdefghijklmnopqrstuvwxyzABCDEFGHIJKLMNOPQRSTUVWXYZ")).

Definition decimal (n : Z) : string := NilZero.string_of_int (Z.to_int n).

Definition percentBang (verb : ascii) : string := String "%" (String "!" (String verb "")).

(** [badVerb]: [%!verb(type=value)], the value printed with [%v]. *)
Definition badVerb (verb : ascii) (ty val : string) : string :=
  percentBang verb +:+ "(" +:+ ty +:+ "=" +:+ val +:+ ")".

(** [missingArg]: [%!verb(MISSING)] *)
Definition missingArg (verb : ascii) : string := percentBang verb +:+ "(MISSING)".

Definition noVerbString : string := "%!(NOVERB)".

(** [fmtString] and [fmtInteger] for a plain verb. *)
Definition fmtString (verb : ascii) (s : string) : string :=
  if isChar verb "sv" then s else badVerb verb "string" s.

Definition fmtInteger (verb : ascii) (n : Z) : string :=
  if isChar verb "dv" then decimal n else badVerb verb "int" (decimal n).

Definition spaced (parts : list string) : string := String.concat " " parts.

(** [printValue]: a slice prints as its elements between brackets, each
    with the same verb. *)
Fixpoint printValue (verb : ascii) (v : Value) : string :=
  match v with
  | VString s => fmtString verb s
  | VInt n => fmtInteger verb n
  | VSlice vs => "[" +:+ spaced (map (printValue verb) vs) +:+ "]"
  end.

(** The operands left over when the format is exhausted:
    [%!(EXTRA type=value, ...)], nothing when all were used. *)
Definition extraOperand (v : Value) : string :=
  typeName v +:+ "=" +:+ printValue "v" v.

Definition extraArgs (a : list Value) : string :=
  match a with
  | [] => ""
  | _ => "%!(EXTRA " +:+ String.concat ", " (map extraOperand a) +:+ ")"
  end.

(** [doPrintf]: literal bytes are copied; [%%] prints a percent sign and
    takes no operand; a verb takes the next operand, or reports it missing;
    a ['%'] that ends the format prints [%!(NOVERB)].  [None]: the format
    leaves the fragment. *)
Fixpoint doPrintf (format : string) (a : list Value) : option string :=
  match format with
  | EmptyString => Some (extraArgs a)
  | String c rest =>
      if negb (Ascii.eqb c "%") then String c <$> doPrintf rest a
      else
        match rest with
        | EmptyString => Some (noVerbString +:+ extraArgs a)
        | String verb rest' =>
            if Ascii.eqb verb "%" then String "%" <$> doPrintf rest' a
            else if negb (plainVerb verb) then None
            else
              match a with
              | [] => String.app (missingArg verb) <$> doPrintf rest' []
              | arg :: a' => String.app (printValue verb arg) <$> doPrintf rest' a'
              end
        end
  end.

(** [fmt.Sprintf]: the fragment where it applies; [other] stands for
    what the real function returns everywhere else. *)
Definition Sprintf (other : string -> list Value -> string)
    (format : string) (a : list Value) : string :=
  match doPrintf format a with
  | Some s => s
  | None => other format a
  end.

(** A string without ['%']: [doPrintf] copies it unchanged. *)
Fixpoint literal (s : string) : bool :=
  match s with
  | EmptyString => true
  | String c r => negb (Ascii.eqb c "%") && literal r
  end.

(** [closes format a]: the format ends outside a directive and its
    directives take every operand of [a], so that nothing is reported
    after the last byte of the format ([%!(NOVERB)], [%!(EXTRA ...)]). *)
Fixpoint closes (format : string) (a : list Value) : bool :=
  match format with
  | EmptyString => match a with [] => true | _ => false end
  | String c rest =>
      if negb (Ascii.eqb c "%") then closes rest a
      else
        match rest with
        | EmptyString => false
        | String verb rest' =>
            if Ascii.eqb verb "%" then closes rest' a else closes rest' (tail a)
        end
  end.

Definition isString (v : Value) : bool :=
  match v with VString _ => true | _ => false end.

(** [doPrint]: operands printed with [%v]; a space goes between two
    operands when neither is a string. *)
Fixpoint doPrint (prevString : bool) (first : bool) (a : list Value) : string :=
  match a with
  | [] => ""
  | arg :: a' =>
      (if negb first && negb (isString arg) && negb prevString then " " else "")
      +:+ printValue "v" arg +:+ doPrint (isString arg) false a'
  end.

Definition Sprint (a : list Value) : string := doPrint false true a.

(* ================================================================= *)
(** ** Package [log]: the standard logger the facade wraps *)

(** The flag bits.  [log.go] copies [Ldate] to [LstdFlags] from the
    standard package with the same values; [Lmsgprefix] is the standard
    package's own and is not copied by [log.go], but [Cfg.Flags] is passed
    through unchanged, so a configuration can set it. *)
Definition Ldate : Z := 1.
Definition Ltime : Z := 2.
Definition Lmicroseconds : Z := 4.
Definition Llongfile : Z := 8.
Definition Lshortfile : Z := 16.
Definition LUTC : Z := 32.
Definition LstdFlags : Z := Z.lor Ldate Ltime.
Definition Lmsgprefix : Z := 64.

(** [flag&bits != 0] *)
Definition has (flag bits : Z) : bool := negb (Z.land flag bits =? 0).

Inductive Writer : Type := Stdout | Stderr.

(** [*stdlog.Logger]: only [New] creates one and nothing in the two files
    calls a setter, so it is modelled as a value. *)
Record StdLogger : Type := mkStdLogger {
  prefix : string;
  flag : Z;
  out : Writer
}.

(** A wall-clock reading, as broken down by [Time.Date] and [Time.Clock]. *)
Record Time : Type := mkTime {
  year : N; month : N; day : N;
  hour : N; minute : N; second : N;
  nanosecond : N
}.

(** What the process can observe or change outside the logger values:
    the records written to the two standard streams (oldest first), the
    exit status once [os.Exit] ran, the clock in local time and in UTC, the
    path under which the calling source file was compiled (reported by
    [runtime.Caller]), and [fmt.Sprintf] on the formats outside the
    modelled fragment. *)
Record World : Type := mkWorld {
  stdout : list string;
  stderr : list string;
  exit_status : option Z;
  clock : Time;
  clockUTC : Time;
  callerFile : string;
  sprintfOther : string -> list Value -> string
}.

(** The standard package's default logger,
    [std = New(os.Stderr, "", LstdFlags)]; neither file reconfigures it. *)
Definition std : StdLogger :=
  {| prefix := ""; flag := LstdFlags; out := Stderr |}.

Definition write (dst : Writer) (record : string) (w : World) : World :=
  match dst with
  | Stdout =>
      mkWorld (stdout w ++ [record]) (stderr w) (exit_status w)
              (clock w) (clockUTC w) (callerFile w) (sprintfOther w)
  | Stderr =>
      mkWorld (stdout w) (stderr w ++ [record]) (exit_status w)
              (clock w) (clockUTC w) (callerFile w) (sprintfOther w)
  end.

(** [os.Exit(code)] *)
Definition Exit (code : Z) (w : World) : World :=
  mkWorld (stdout w) (stderr w) (Some code)
          (clock w) (clockUTC w) (callerFile w) (sprintfOther w).

(** [itoa]: decimal, zero-padded on the left to [wid] digits. *)
Definition itoa (i : N) (wid : nat) : string :=
  let digits := NilZero.string_of_uint (N.to_uint i) in
  string_of_list_ascii (replicate (wid - String.length digits) "0"%char) +:+ digits.

(** The text after the last ['/'] of [s], when [s] has one. *)
Fixpoint afterLastSlash (s : string) : option string :=
  match s with
  | EmptyString => None
  | String c r =>
      match afterLastSlash r with
      | Some t => Some t
      | None => if Ascii.eqb c "/" then Some r else None
      end
  end.

(** [Lshortfile]: the final path element; a ['/'] at index 0 is not
    looked at (the loop runs while [i > 0]). *)
Definition shortFile (file : string) : string :=
  match file with
  | EmptyString => file
  | String _ r => match afterLastSlash r with Some t => t | None => file end
  end.

Definition dateText (t : Time) : string :=
  itoa (year t) 4 +:+ "/" +:+ itoa (month t) 2 +:+ "/" +:+ itoa (day t) 2 +:+ " ".

Definition clockText (micro : bool) (t : Time) : string :=
  itoa (hour t) 2 +:+ ":" +:+ itoa (minute t) 2 +:+ ":" +:+ itoa (second t) 2
  +:+ (if micro then "." +:+ itoa (nanosecond t / 1000)%N 6 else "") +:+ " ".

(** The line decorations selected by the flags: date, time, file and
    line.  This is [formatHeader] without its two [prefix] appends. *)
Definition decorations (flg : Z) (file : string) (line : N) (w : World) : string :=
  (if has flg (Z.lor Ldate (Z.lor Ltime Lmicroseconds)) then
     let t := if has flg LUTC then clockUTC w else clock w in
     (if has flg Ldate then dateText t else "")
     +:+ (if has flg (Z.lor Ltime Lmicroseconds)
          then clockText (has flg Lmicroseconds) t else "")
   else "")
  +:+ (if has flg (Z.lor Lshortfile Llongfile) then
         (if has flg Lshortfile then shortFile file else file)
         +:+ ":" +:+ itoa line 0 +:+ ": "
       else "").

(** [formatHeader]: the prefix starts the line, ahead of the decorations,
    unless [Lmsgprefix] moves it behind them. *)
Definition formatHeader (l : StdLogger) (file : string) (line : N) (w : World) : string :=
  (if has (flag l) Lmsgprefix then "" else prefix l)
  +:+ decorations (flag l) file line w
  +:+ (if has (flag l) Lmsgprefix then prefix l else "").

Definition newline : string := String "010" "".

Fixpoint endsWithNewline (s : string) : bool :=
  match s with
  | EmptyString => false
  | String c EmptyString => Ascii.eqb c "010"
  | String _ r => endsWithNewline r
  end.

(** [Logger.Output]: one [Write] of header, text, and a newline when the
    text does not end in one.  [line] is the line of the caller that
    [runtime.Caller] reports. *)
Definition Output (l : StdLogger) (line : N) (s : string) (w : World) : World :=
  write (out l)
        (formatHeader l (callerFile w) line w +:+ s
         +:+ (if endsWithNewline s then "" else newline))
        w.

(* ================================================================= *)
(** ** Faults and the state monad *)

(** [BadPointer]: a field is read or written through a pointer that holds
    no logger (Go panics on the nil dereference). *)
Inductive fault : Type := BadPointer.

Inductive result (A : Type) : Type :=
| Ok (a : A)
| Fault (e : fault).
Arguments Ok {A} a.
Arguments Fault {A} e.

Definition M (S A : Type) : Type := S -> result (A * S).

Definition ret {S A : Type} (a : A) : M S A := fun s => Ok (a, s).

Definition bind {S A B : Type} (m : M S A) (k : A -> M S B) : M S B :=
  fun s => match m s with
           | Ok (a, s') => k a s'
           | Fault e => Fault e
           end.

Notation "'let*' x ':=' m 'in' k" := (bind m (fun x => k))
  (at level 10, x name, m at level 100, k at level 200).

(** [Logger.Printf(format, v...)] is [Output(2, Sprintf(format, v...))]. *)
Definition Printf (l : StdLogger) (line : N) (format : string) (v : list Value)
  : M World unit :=
  fun w => Ok (tt, Output l line (Sprintf (sprintfOther w) format v) w).

(** The heap of logger structs, addressed by position, next to the world.
    [L] is the struct type: each of the two packages has its own. *)
Record State (L : Type) : Type := mkState {
  heap : list L;
  world : World
}.
Arguments mkState {L} heap world.
Arguments heap {L} s.
Arguments world {L} s.

(** A [*Logger]: the address of a struct in the heap. *)
Abbreviation loc := nat.

Section HeapOps.
Context {L : Type}.

(** [&Logger{...}] *)
Definition alloc (v : L) : M (State L) loc :=
  fun s => Ok (length (heap s), mkState (heap s ++ [v]) (world s)).

(** Reading through the pointer. *)
Definition load (l : loc) : M (State L) L :=
  fun s => match heap s !! l with
           | Some v => Ok (v, s)
           | None => Fault BadPointer
           end.

(** A field assignment [l.f = x], in place. *)
Definition store (l : loc) (upd : L -> L) : M (State L) unit :=
  fun s => match heap s !! l with
           | Some v => Ok (tt, mkState (<[l := upd v]> (heap s)) (world s))
           | None => Fault BadPointer
           end.

(** An action of the standard packages: it sees the world only. *)
Definition inWorld {A : Type} (m : M World A) : M (State L) A :=
  fun s => match m (world s) with
           | Ok (a, w) => Ok (a, mkState (heap s) w)
           | Fault e => Fault e
           end.
End HeapOps.

(** [stdlog.New(out, prefix, flag)] *)
Definition stdlog_New (out : Writer) (prefix : string) (flag : Z) : StdLogger :=
  {| prefix := prefix; flag := flag; out := out |}.

(** [stdlog.Fatal(v...)]: [std.Output(2, fmt.Sprint(v...))], then
    [os.Exit(1)].  [line] is the line of the call to [stdlog.Fatal]. *)
Definition stdlog_Fatal (line : N) (v : list Value) : M World unit :=
  fun w => Ok (tt, Exit 1 (Output std line (Sprint v) w)).

(** [strings.Join(elems, sep)] *)
Fixpoint Join (elems : list string) (sep : string) : string :=
  match elems with
  | [] => ""
  | e :: rest =>
      match rest with
      | [] => e
      | _ => e +:+ sep +:+ Join rest sep
      end
  end.

(* ================================================================= *)
(** ** [log.go]: the current implementation *)

Definition LevelError : string := "Error".
Definition LevelInfo : string := "Info".
Definition LevelDebug : string := "Debug".

Definition ErrStr : string := "ER".
Definition InfoStr : string := "INF".
Definition DebugStr : string := "DBG".

Module Cfg.
(** [Flags] is a Go [int]; only its bits are ever looked at. *)
Record Cfg : Type := mk {
  Level : string;
  Prefix : string;
  Flags : Z
}.
End Cfg.
Abbreviation Cfg := Cfg.Cfg.

(** The two function values a dispatch slot ever holds: the package
    variable [NoOpFn], or the method value [l.logWrite], which carries its
    receiver.  Function values cannot sit inside the heap they act on, so
    they are represented by these codes and run by [call]. *)
Inductive LoggerFunc : Type :=
| NoOpFn
| logWriteOf (l : loc).

(** The two closures a slot returns, as what they capture: nothing, or
    the logger pointer and the precomputed prefix.  [invoke] runs them. *)
Inductive PrintFunc : Type :=
| noOpPrint
| writePrint (l : loc) (prefix : string).

Record Logger : Type := mkLogger {
  log : StdLogger;
  errorFn : LoggerFunc;
  debugFn : LoggerFunc;
  infoFn : LoggerFunc
}.

Definition set_errorFn (f : LoggerFunc) (v : Logger) : Logger :=
  mkLogger (log v) f (debugFn v) (infoFn v).
Definition set_debugFn (f : LoggerFunc) (v : Logger) : Logger :=
  mkLogger (log v) (errorFn v) f (infoFn v).
Definition set_infoFn (f : LoggerFunc) (v : Logger) : Logger :=
  mkLogger (log v) (errorFn v) (debugFn v) f.

(** [logWrite]: builds the prefix now, writes when the closure runs. *)
Definition logWrite (l : loc) (level : string) (ctx : list string)
  : M (State Logger) PrintFunc :=
  ret (writePrint l (level +:+ "[" +:+ Join ctx "|" +:+ "]")).

(** Calling a slot value. *)
Definition call (f : LoggerFunc) (level : string) (ctx : list string)
  : M (State Logger) PrintFunc :=
  match f with
  | NoOpFn => ret noOpPrint
  | logWriteOf l => logWrite l level ctx
  end.

(** Calling a returned closure; the [Printf] is on line 132 of [log.go]. *)
Definition invoke (f : PrintFunc) (format : string) (args : list Value)
  : M (State Logger) unit :=
  match f with
  | noOpPrint => ret tt
  | writePrint l prefix =>
      let* v := load l in
      inWorld (Printf (log v) 132 (prefix +:+ "<" +:+ format +:+ ">") args)
  end.

(** [Level]: the [switch] with its two [fallthrough]s, written out. *)
Definition Level (l : loc) (level : string) : M (State Logger) loc :=
  let* _ :=
    if String.eqb level LevelDebug then
      let* _ := store l (set_debugFn (logWriteOf l)) in
      let* _ := store l (set_infoFn (logWriteOf l)) in
      store l (set_errorFn (logWriteOf l))
    else if String.eqb level LevelInfo then
      let* _ := store l (set_infoFn (logWriteOf l)) in
      store l (set_errorFn (logWriteOf l))
    else if String.eqb level LevelError then
      store l (set_errorFn (logWriteOf l))
    else ret tt in
  ret l.

Definition New (c : Cfg) : M (State Logger) loc :=
  let l := stdlog_New Stdout (Cfg.Prefix c +:+ " ") (Cfg.Flags c) in
  let* logger := alloc (mkLogger l NoOpFn NoOpFn NoOpFn) in
  let* _ := Level logger (Cfg.Level c) in
  ret logger.

Definition Error (l : loc) (ctx : list string) : M (State Logger) PrintFunc :=
  let* v := load l in call (errorFn v) ErrStr ctx.

Definition Info (l : loc) (ctx : list string) : M (State Logger) PrintFunc :=
  let* v := load l in call (infoFn v) InfoStr ctx.

Definition Debug (l : loc) (ctx : list string) : M (State Logger) PrintFunc :=
  let* v := load l in call (debugFn v) DebugStr ctx.

(** [Fatal]: the call to [stdlog.Fatal] is on line 138 of [log.go]. *)
Definition Fatal (args : list Value) : M (State Logger) unit :=
  inWorld (stdlog_Fatal 138 args).

(** *** Vocabulary of the properties *)

Inductive Severity : Type := SevError | SevInfo | SevDebug.

Definition tag (sev : Severity) : string :=
  match sev with SevError => ErrStr | SevInfo => InfoStr | SevDebug => DebugStr end.

Definition slot (sev : Severity) (v : Logger) : LoggerFunc :=
  match sev with SevError => errorFn v | SevInfo => infoFn v | SevDebug => debugFn v end.

Definition entry (sev : Severity) : loc -> list string -> M (State Logger) PrintFunc :=
  match sev with SevError => Error | SevInfo => Info | SevDebug => Debug end.

(** A slot is active when it holds the write path. *)
Definition active (f : LoggerFunc) : bool :=
  match f with NoOpFn => false | logWriteOf _ => true end.

(** The armed slots form a prefix of Error, Info, Debug. *)
Definition ladder (v : Logger) : bool :=
  implb (active (debugFn v)) (active (infoFn v))
  && implb (active (infoFn v)) (active (errorFn v)).

(** A run of [Level] calls on one logger. *)
Fixpoint Levels (l : loc) (levels : list string) : M (State Logger) loc :=
  match levels with
  | [] => ret l
  | level :: more => let* l' := Level l level in Levels l' more
  end.

Definition recognized (level : string) : bool :=
  String.eqb level LevelDebug || String.eqb level LevelInfo || String.eqb level LevelError.

(** The struct [New] allocates, before it arms it. *)
Definition fresh (c : Cfg) : Logger :=
  mkLogger (stdlog_New Stdout (Cfg.Prefix c +:+ " ") (Cfg.Flags c))
           NoOpFn NoOpFn NoOpFn.

(** What one [Level] call leaves in the struct: the assignments of the
    case reached and of the cases below it, nothing else. *)
Definition arm (level : string) (l : loc) (v : Logger) : Logger :=
  if String.eqb level LevelDebug then
    mkLogger (log v) (logWriteOf l) (logWriteOf l) (logWriteOf l)
  else if String.eqb level LevelInfo then
    mkLogger (log v) (logWriteOf l) (debugFn v) (logWriteOf l)
  else if String.eqb level LevelError then
    mkLogger (log v) (logWriteOf l) (debugFn v) (infoFn v)
  else v.

(** Every slot of the struct at [l] holds [NoOpFn] or the write path of
    that same logger. *)
Definition ownSlot (l : loc) (f : LoggerFunc) : bool :=
  match f with
  | NoOpFn => true
  | logWriteOf l' => Nat.eqb l' l
  end.

Definition selfBound (l : loc) (v : Logger) : bool :=
  ownSlot l (errorFn v) && ownSlot l (infoFn v) && ownSlot l (debugFn v).

(** Where [formatHeader] puts a prefix [P ++ " "] relative to the
    decorations [deco]. *)
Definition lineHeader (P : string) (flags : Z) (deco : string) : string :=
  if has flags Lmsgprefix then deco +:+ P +:+ " " else P +:+ " " +:+ deco.

(** The line layout in the words of the specification: the writer's
    decorations, the prefix and a space, the tag, the bracketed contexts,
    the message between angle brackets. *)
Definition specLine (deco P T : string) (ctx : list string) (message : string) : string :=
  deco +:+ P +:+ " " +:+ T +:+ "[" +:+ Join ctx "|" +:+ "]" +:+ "<" +:+ message +:+ ">".

(* ================================================================= *)
(** ** [bkp/log1/log1.go]: the superseded implementation *)

Module Log1.

Definition LevelError : Z := 0.
Definition LevelInfo : Z := 1.
Definition LevelDebug : Z := 2.

Definition ErrStr : string := "[Error]".
Definition InfoStr : string := "[Info ]".
Definition DebugStr : string := "[Debug]".

Inductive PrintFunc : Type :=
| noOpPrint
| writePrint (l : loc) (prefix : string).

(** [NoOpLogger]: a package variable holding a function that ignores
    its arguments. *)
Definition NoOpLogger (_ : string) (_ : list string) : PrintFunc := noOpPrint.

(** [level] is an [int8]; it is only stored and compared. *)
Record Logger : Type := mkLogger {
  log : StdLogger;
  level : Z
}.

Definition set_level (n : Z) (v : Logger) : Logger := mkLogger (log v) n.

(** [&Logger{log: l}]: [level] starts at the zero value. *)
Definition New (w : Writer) (prefix : string) (flag : Z) : M (State Logger) loc :=
  let l := stdlog_New w (prefix +:+ " ") flag in
  alloc (mkLogger l 0).

Definition Level (l : loc) (level : Z) : M (State Logger) loc :=
  let* _ := store l (set_level level) in
  ret l.

Definition logWrite (l : loc) (level : string) (ctx : list string)
  : M (State Logger) PrintFunc :=
  ret (writePrint l (level +:+ "[" +:+ Join ctx "|" +:+ "]")).

Definition Error (l : loc) (ctx : list string) : M (State Logger) PrintFunc :=
  let* v := load l in
  if LevelError <=? level v then logWrite l ErrStr ctx
  else ret (NoOpLogger "" [""]).

Definition Info (l : loc) (ctx : list string) : M (State Logger) PrintFunc :=
  let* v := load l in
  if LevelError <=? level v then logWrite l InfoStr ctx
  else ret (NoOpLogger "" [""]).

Definition Debug (l : loc) (ctx : list string) : M (State Logger) PrintFunc :=
  let* v := load l in
  if LevelError <=? level v then logWrite l DebugStr ctx
  else ret (NoOpLogger "" [""]).

(** The closure of [logWrite] passes [args] without spreading it: the
    slice is the one operand of the [Printf] on line 103. *)
Definition invoke (f : PrintFunc) (format : string) (args : list Value)
  : M (State Logger) unit :=
  match f with
  | noOpPrint => ret tt
  | writePrint l prefix =>
      let* v := load l in
      inWorld (Printf (log v) 103 (prefix +:+ "<" +:+ format +:+ ">") [VSlice args])
  end.

End Log1.

(* ================================================================= *)
(** ** A concrete world for the worked examples *)

Definition exampleWorld : World :=
  {| stdout := []; stderr := []; exit_status := None;
     clock := mkTime 2009 1 23 1 23 23 123123000;
     clockUTC := mkTime 2009 1 22 23 23 23 123123000;
     callerFile := "/go/src/log/log.go";
     sprintfOther := fun _ _ => "" |}.

Definition emptyState : State Logger := mkState [] exampleWorld.

Definition emptyState1 : State Log1.Logger := mkState [] exampleWorld.

(* ================================================================= *)
(** ** [fmt.Sprintf] directive by directive *)

(** [doPrintf] above prints the directives that are a bare verb.  The
    scanner below follows Go's [doPrintf] over every directive: flags, an
    argument index, a width, a precision, a verb.  It finds where each
    directive ends and which operands it takes, and leaves what such a
    directive prints to [render]. *)

(** What a directive prints, from its text behind the ['%'] and the
    operands it asked for (in order: width [*], precision [*], verb);
    [None] is an operand asked for when none is left. *)
Definition Render : Type := string -> list (option Value) -> string.

(** Where the scanner is inside a directive: in the flags; behind the
    argument index that follows the flags; in the width digits; behind a
    width [*]; behind the ['.']; behind the argument index that follows the
    ['.']; in the precision digits; behind a precision [*]; behind the
    argument index that precedes the verb; inside an argument index, with
    the number of bytes still to pass and the position to go on from; in
    the continuation bytes of a verb that is a multi-byte rune. *)
Inductive Mode : Type :=
| MFlags
| MAfterA
| MWidth (n : N)
| MStar
| MDot
| MAfterB
| MPrec (n : N)
| MPrecStar
| MAfterC
| MSkip (k : nat) (next : Mode)
| MRune (k : nat).

(** A directive under way: its text so far, the operands asked for so
    far, [goodArgNum] and [afterIndex] of [doPrintf]. *)
Record DState : Type := mkD {
  dmode : Mode;
  dtext : string;
  dreqs : list (option Value);
  dgood : bool;
  dafter : bool
}.

Inductive Pos : Type :=
| PText
| PDir (d : DState).

(** The scan under way: the operands from [argNum] on, [reordered], and
    the position. *)
Record SState : Type := mkS {
  ops : list Value;
  reord : bool;
  pos : Pos
}.

Inductive Outcome : Type :=
| Reject
| Go (out : string) (st : SState).

Definition isDigit (c : ascii) : bool := isChar c "0123456789".

Definition digitVal (c : ascii) : N := (N_of_ascii c - 48)%N.

(** [parsenum] gives up once the number read so far is above 1000000 and
    another digit follows. *)
Definition nextDigit (n : N) (c : ascii) : option N :=
  if (1000000 <? n)%N then None else Some (10 * n + digitVal c)%N.

(** All of [s] as a number: [None] when [s] is empty, has a byte that is
    no digit, or is too long a number. *)
Fixpoint digitsFrom (n : N) (s : string) : option N :=
  match s with
  | EmptyString => Some n
  | String c r =>
      if isDigit c then
        match nextDigit n c with
        | Some n' => digitsFrom n' r
        | None => None
        end
      else None
  end.

Definition number (s : string) : option N :=
  match s with
  | EmptyString => None
  | _ => digitsFrom 0 s
  end.

(** The text before the first [']'] of [s], when [s] has one. *)
Fixpoint beforeBracket (s : string) : option string :=
  match s with
  | EmptyString => None
  | String c r =>
      if Ascii.eqb c "]" then Some ""
      else String c <$> beforeBracket r
  end.

(** [parseArgNumber], on the text behind the ['[']: the number between
    the brackets when it is one, and how many bytes behind the ['['] belong
    to the index.  With fewer than two bytes left, or without a closing
    bracket, only the ['['] is passed.  The answer for a lone [']'] that
    ends the format depends on whether anything follows the format, and is
    not given. *)
Definition indexLook (rest : string) : option (option N * nat) :=
  match rest with
  | String c EmptyString =>
      if Ascii.eqb c "]" then None else Some (None, 0%nat)
  | EmptyString => Some (None, 0%nat)
  | _ =>
      match beforeBracket rest with
      | Some inner => Some (number inner, S (String.length inner))
      | None => Some (None, 0%nat)
      end
  end.

Definition inRange (lo hi : N) (c : ascii) : bool :=
  (lo <=? N_of_ascii c)%N && (N_of_ascii c <=? hi)%N.

(** [utf8.DecodeRuneInString]: the number of bytes of the rune that
    starts with byte [c] and goes on in [rest]; 1 for an ASCII byte and for
    every encoding that is invalid or cut short. *)
Definition runeSize (c : ascii) (rest : string) : nat :=
  let b := N_of_ascii c in
  if (b <? 194)%N then 1%nat
  else if (b <? 224)%N then
    match rest with
    | String c1 _ => if inRange 128 191 c1 then 2%nat else 1%nat
    | _ => 1%nat
    end
  else if (b <? 240)%N then
    match rest with
    | String c1 (String c2 _) =>
        if inRange (if (b =? 224)%N then 160 else 128)
                   (if (b =? 237)%N then 159 else 191) c1
           && inRange 128 191 c2
        then 3%nat else 1%nat
    | _ => 1%nat
    end
  else if (b <? 245)%N then
    match rest with
    | String c1 (String c2 (String c3 _)) =>
        if inRange (if (b =? 240)%N then 144 else 128)
                   (if (b =? 244)%N then 143 else 191) c1
           && inRange 128 191 c2 && inRange 128 191 c3
        then 4%nat else 1%nat
    | _ => 1%nat
    end
  else 1%nat.

(** What a finished directive prints: as [doPrintf] for a bare verb of
    its fragment, [render] for every other directive. *)
Definition directiveOut (render : Render) (text : string)
    (reqs : list (option Value)) : string :=
  match text, reqs with
  | String c EmptyString, [] =>
      if Ascii.eqb c "%" then "%" else render text reqs
  | String c EmptyString, [r] =>
      if plainVerb c then
        match r with
        | None => missingArg c
        | Some v => printValue c v
        end
      else render text reqs
  | _, _ => render text reqs
  end.

Section Scanner.
Variable render : Render.
(** All the operands of the call. *)
Variable a0 : list Value.

Definition withByte (d : DState) (c : ascii) (mode : Mode) : DState :=
  mkD mode (dtext d +:+ String c "") (dreqs d) (dgood d) (dafter d).

Definition inDir (st : SState) (d : DState) : Outcome :=
  Go "" (mkS (ops st) (reord st) (PDir d)).

(** The verb: ['%'] takes no operand, and neither does a verb behind a
    bad argument index; any other verb takes the next operand, if there is
    one. *)
Definition onVerb (st : SState) (d : DState) (c : ascii) (rest : string) : Outcome :=
  let takes := negb (Ascii.eqb c "%") && dgood d in
  let reqs := if takes then dreqs d ++ [head (ops st)] else dreqs d in
  let ops' := if takes then tail (ops st) else ops st in
  let text := dtext d +:+ String c "" in
  match runeSize c rest with
  | S (S k) =>
      Go "" (mkS ops' (reord st)
               (PDir (mkD (MRune (S k)) text reqs (dgood d) (dafter d))))
  | _ => Go (directiveOut render text reqs) (mkS ops' (reord st) PText)
  end.

(** [argNumber] at a ['[']: the scan is reordered from here on; a number
    between 1 and the number of operands moves to that operand, anything
    else makes the argument number bad. *)
Definition onIndex (st : SState) (d : DState) (next : Mode) (rest : string)
  : Outcome :=
  match indexLook rest with
  | None => Reject
  | Some (num, skip) =>
      let valid :=
        match num with
        | Some n => (1 <=? n)%N && (n <=? N.of_nat (length a0))%N
        | None => false
        end in
      let ops' :=
        match num with
        | Some n => if valid then drop (N.to_nat n - 1) a0 else ops st
        | None => ops st
        end in
      let mode := match skip with O => next | S _ => MSkip skip next end in
      Go "" (mkS ops' true
               (PDir (mkD mode (dtext d +:+ "[") (dreqs d)
                          (dgood d && valid)
                          (match num with Some _ => true | None => false end))))
  end.

(** A [*]: the next operand, if there is one, is the width or the
    precision. *)
Definition onStar (st : SState) (d : DState) (next : Mode) : Outcome :=
  Go "" (mkS (tail (ops st)) (reord st)
           (PDir (mkD next (dtext d +:+ "*") (dreqs d ++ [head (ops st)])
                      (dgood d) false))).

Definition onPosC (st : SState) (d : DState) (c : ascii) (rest : string) : Outcome :=
  if negb (dafter d) && Ascii.eqb c "[" then onIndex st d MAfterC rest
  else onVerb st d c rest.

Definition onDigit (st : SState) (d : DState) (c : ascii) (n : N)
    (mode : N -> Mode) : Outcome :=
  match nextDigit n c with
  | Some n' => inDir st (withByte d c (mode n'))
  | None => Reject
  end.

Definition onPrecStart (st : SState) (d : DState) (c : ascii) (rest : string)
  : Outcome :=
  if Ascii.eqb c "*" then onStar st d MPrecStar
  else if isDigit c then onDigit st d c 0 MPrec
  else onPosC st d c rest.

Definition onPosB (st : SState) (d : DState) (c : ascii) (rest : string) : Outcome :=
  if Ascii.eqb c "[" then onIndex st d MAfterB rest
  else onPrecStart st (mkD (dmode d) (dtext d) (dreqs d) (dgood d) false) c rest.

Definition onPrecCheck (st : SState) (d : DState) (c : ascii) (rest : string)
  : Outcome :=
  if Ascii.eqb c "." then
    inDir st (mkD MDot (dtext d +:+ ".") (dreqs d)
                  (dgood d && negb (dafter d)) (dafter d))
  else onPosC st d c rest.

Definition onWidthStart (st : SState) (d : DState) (c : ascii) (rest : string)
  : Outcome :=
  if Ascii.eqb c "*" then onStar st d MStar
  else if isDigit c then
    onDigit st (mkD (dmode d) (dtext d) (dreqs d)
                    (dgood d && negb (dafter d)) (dafter d)) c 0 MWidth
  else onPrecCheck st d c rest.

Definition onPosA (st : SState) (d : DState) (c : ascii) (rest : string) : Outcome :=
  if Ascii.eqb c "[" then onIndex st d MAfterA rest
  else onWidthStart st d c rest.

(** One byte of the format, with the text behind it for the two places
    where [doPrintf] looks ahead. *)
Definition next (st : SState) (c : ascii) (rest : string) : Outcome :=
  match pos st with
  | PText =>
      if Ascii.eqb c "%" then inDir st (mkD MFlags "" [] true false)
      else Go (String c "") st
  | PDir d =>
      match dmode d with
      | MFlags =>
          if isChar c "#0+- " then inDir st (withByte d c MFlags)
          else onPosA st d c rest
      | MAfterA => onWidthStart st d c rest
      | MWidth n =>
          if isDigit c then onDigit st d c n MWidth else onPrecCheck st d c rest
      | MStar => onPrecCheck st d c rest
      | MDot => onPosB st d c rest
      | MAfterB => onPrecStart st d c rest
      | MPrec n =>
          if isDigit c then onDigit st d c n MPrec else onPosC st d c rest
      | MPrecStar => onPosC st d c rest
      | MAfterC => onVerb st d c rest
      | MSkip k m =>
          inDir st (withByte d c (match k with S (S k') => MSkip (S k') m | _ => m end))
      | MRune k =>
          match k with
          | S (S k') => inDir st (withByte d c (MRune (S k')))
          | _ =>
              Go (directiveOut render (dtext d +:+ String c "") (dreqs d))
                 (mkS (ops st) (reord st) PText)
          end
      end
  end.

(** The format is over: the scan must be outside a directive, and every
    operand taken unless the scan was reordered. *)
Definition accepts (st : SState) : bool :=
  match pos st with
  | PText => reord st || match ops st with [] => true | _ => false end
  | PDir _ => false
  end.

(** The scan.  [None]: the format ends inside a directive, leaves
    operands unused, has a width or a precision too long a number, or ends
    in the two bytes of an empty argument index. *)
Fixpoint scanFrom (st : SState) (format : string) : option string :=
  match format with
  | EmptyString => if accepts st then Some "" else None
  | String c rest =>
      match next st c rest with
      | Reject => None
      | Go out st' => append out <$> scanFrom st' rest
      end
  end.

End Scanner.

Definition scanPrintf (render : Render) (format : string) (a : list Value)
  : option string :=
  scanFrom render a (mkS a false PText) format.

(** [other] is a [Sprintf] that formats directive by directive: on every
    format the scanner accepts, the result is the scanned text with each
    directive printed by [render]. *)
Definition scansAs (render : Render) (other : string -> list Value -> string)
  : Prop :=
  forall format a m,
    scanPrintf render format a = Some m -> Sprintf other format a = m.

(** *** A world whose [Sprintf] scans *)

(** A rendering for the worked examples: a decimal integer in a field of
    five, as [%5d] prints it; nothing for every other directive. *)
Definition exampleRender : Render :=
  fun text reqs =>
    match reqs with
    | [Some (VInt n)] =>
        if String.eqb text "5d" then
          string_of_list_ascii
            (replicate (5 - String.length (decimal n)) " "%char)
          +:+ decimal n
        else ""
    | _ => ""
    end.

Definition scanOther (format : string) (a : list Value) : string :=
  match scanPrintf exampleRender format a with
  | Some m => m
  | None => ""
  end.

(** The world of the worked examples, with a [Sprintf] that scans. *)
Definition scanWorld : World :=
  {| stdout := []; stderr := []; exit_status := None;
     clock := clock exampleWorld; clockUTC := clockUTC exampleWorld;
     callerFile := callerFile exampleWorld;
     sprintfOther := scanOther |}.

(** A rendering that shows what the scanner hands over: the text of the
    directive and the operands it asked for. *)
Definition showRender : Render :=
  fun text reqs =>
    "{" +:+ text +:+ ":"
    +:+ String.concat ","
          (map (fun r => match r with
                         | Some v => printValue "v" v
                         | None => "_"
                         end) reqs)
    +:+ "}".

(* ================================================================= *)
(** ** Vocabulary of the further properties *)

(** The height of a level name on the ladder; 0 for a name [Level] does
    not recognize. *)
Definition rank (level : string) : nat :=
  if String.eqb level LevelDebug then 3
  else if String.eqb level LevelInfo then 2
  else if String.eqb level LevelError then 1
  else 0.

(** The height a severity needs. *)
Definition sevRank (sev : Severity) : nat :=
  match sev with SevError => 1 | SevInfo => 2 | SevDebug => 3 end.

(** The highest level name of a list. *)
Definition topRank (levels : list string) : nat :=
  foldr (fun level r => Nat.max (rank level) r) 0%nat levels.

(** A string without the separator ['|']. *)
Fixpoint barFree (s : string) : bool :=
  match s with
  | EmptyString => true
  | String c r => negb (Ascii.eqb c "|") && barFree r
  end.

(** The legacy tags and entry points, by severity. *)
Definition tag1 (sev : Severity) : string :=
  match sev with
  | SevError => Log1.ErrStr | SevInfo => Log1.InfoStr | SevDebug => Log1.DebugStr
  end.

Definition entry1 (sev : Severity)
  : loc -> list string -> M (State Log1.Logger) Log1.PrintFunc :=
  match sev with
  | SevError => Log1.Error | SevInfo => Log1.Info | SevDebug => Log1.Debug
  end.

(* ================================================================= *)
(** ** Strings and the [fmt] fragment *)

#[local] Arguments append !_ _ / : simpl nomatch.

Lemma append_nil_l (s : string) : "" +:+ s = s.
Proof. reflexivity. Qed.

Lemma append_cons (c : ascii) (s t : string) :
  String c s +:+ t = String c (s +:+ t).
Proof. reflexivity. Qed.

Lemma append_nil_r (s : string) : s +:+ "" = s.
Proof.
  induction s as [|c s IH]; [reflexivity|]. now rewrite append_cons, IH.
Qed.

Lemma append_assoc (s t u : string) : (s +:+ t) +:+ u = s +:+ (t +:+ u).
Proof.
  induction s as [|c s IH]; [reflexivity|]. now rewrite !append_cons, IH.
Qed.

Lemma literal_app (s t : string) :
  literal s = true -> literal t = true -> literal (s +:+ t) = true.
Proof.
  intros Hs Ht. induction s as [|c s IH]; cbn in *; [exact Ht|].
  apply andb_true_iff in Hs as [Hc Hs]. rewrite Hc. cbn. auto.
Qed.

Lemma Join_literal (ctx : list string) (sep : string) :
  forallb literal ctx = true -> literal sep = true ->
  literal (Join ctx sep) = true.
Proof.
  intros Hctx Hsep. induction ctx as [|e rest IH]; [reflexivity|].
  cbn [forallb] in Hctx. apply andb_true_iff in Hctx as [He Hrest].
  cbn [Join]. destruct rest as [|e' rest']; [exact He|].
  apply literal_app; [exact He|]. apply literal_app; [exact Hsep|]. auto.
Qed.

(** A literal head is copied in front of whatever the rest prints. *)
Lemma doPrintf_literal_head (lit format : string) (a : list Value) :
  literal lit = true ->
  doPrintf (lit +:+ format) a = append lit <$> doPrintf format a.
Proof.
  intros Hlit. induction lit as [|c lit IH]; cbn [append].
  - now destruct (doPrintf format a).
  - cbn [literal] in Hlit. apply andb_true_iff in Hlit as [Hc Hlit].
    cbn [doPrintf]. rewrite Hc, (IH Hlit).
    now destruct (doPrintf format a).
Qed.

Lemma doPrintf_literal (lit : string) :
  literal lit = true -> doPrintf lit [] = Some lit.
Proof.
  intros Hlit. rewrite <- (append_nil_r lit) at 1.
  rewrite (doPrintf_literal_head _ _ _ Hlit). cbn. now rewrite append_nil_r.
Qed.

Lemma doPrintf_cons (c : ascii) (rest : string) (a : list Value) :
  doPrintf (String c rest) a =
  if negb (Ascii.eqb c "%") then String c <$> doPrintf rest a
  else
    match rest with
    | EmptyString => Some (noVerbString +:+ extraArgs a)
    | String verb rest' =>
        if Ascii.eqb verb "%" then String "%" <$> doPrintf rest' a
        else if negb (plainVerb verb) then None
        else
          match a with
          | [] => append (missingArg verb) <$> doPrintf rest' []
          | arg :: a' => append (printValue verb arg) <$> doPrintf rest' a'
          end
    end.
Proof. destruct rest; reflexivity. Qed.

Lemma closes_cons (c : ascii) (rest : string) (a : list Value) :
  closes (String c rest) a =
  if negb (Ascii.eqb c "%") then closes rest a
  else
    match rest with
    | EmptyString => false
    | String verb rest' =>
        if Ascii.eqb verb "%" then closes rest' a else closes rest' (tail a)
    end.
Proof. destruct rest; reflexivity. Qed.

(** A literal tail is copied behind what a closing format prints.  The
    recursion of [doPrintf] takes one or two bytes at a time, so the
    statement is proved for [format] and for [String c format] together. *)
Lemma doPrintf_literal_tail_aux (lit : string) (Hlit : literal lit = true)
    (format : string) :
  (forall a m, closes format a = true -> doPrintf format a = Some m ->
               doPrintf (format +:+ lit) a = Some (m +:+ lit))
  /\ (forall c a m, closes (String c format) a = true ->
                    doPrintf (String c format) a = Some m ->
                    doPrintf (String c format +:+ lit) a = Some (m +:+ lit)).
Proof.
  induction format as [|c' format [IH1 IH2]].
  - split.
    + intros [|v a] m Hc Hm; [|discriminate Hc].
      cbn in Hm. injection Hm as Hm; subst m. now apply doPrintf_literal.
    + intros c a m. rewrite append_cons, append_nil_l.
      rewrite closes_cons, !doPrintf_cons.
      destruct (negb (Ascii.eqb c "%")); [|now cbn].
      destruct a as [|v a]; [|now cbn]. intros _ Hm.
      cbn in Hm. injection Hm as Hm; subst m.
      rewrite (doPrintf_literal _ Hlit). reflexivity.
  - split; [exact (IH2 c')|].
    intros c a m. rewrite !append_cons.
    rewrite (closes_cons c), (doPrintf_cons c (String c' format)),
      (doPrintf_cons c (String c' (format +:+ lit))).
    destruct (negb (Ascii.eqb c "%")).
    + intros Hc Hm.
      destruct (doPrintf (String c' format) a) as [m'|] eqn:Em'; [|now cbn in Hm].
      cbn in Hm. injection Hm as Hm; subst m.
      rewrite <- append_cons, (IH2 c' a m' Hc Em'). reflexivity.
    + destruct (Ascii.eqb c' "%").
      * intros Hc Hm.
        destruct (doPrintf format a) as [m'|] eqn:Em'; [|now cbn in Hm].
        cbn in Hm. injection Hm as Hm; subst m.
        rewrite (IH1 a m' Hc Em'). reflexivity.
      * destruct (negb (plainVerb c')); [now cbn|].
        destruct a as [|arg a']; cbn [tail]; intros Hc Hm.
        -- destruct (doPrintf format []) as [m'|] eqn:Em'; [|now cbn in Hm].
           cbn in Hm. injection Hm as Hm; subst m. rewrite (IH1 [] m' Hc Em').
           cbn. now rewrite ?append_assoc.
        -- destruct (doPrintf format a') as [m'|] eqn:Em'; [|now cbn in Hm].
           cbn in Hm. injection Hm as Hm; subst m. rewrite (IH1 a' m' Hc Em').
           cbn. now rewrite ?append_assoc.
Qed.

Lemma doPrintf_literal_tail (lit format : string) (a : list Value) (m : string) :
  literal lit = true -> closes format a = true -> doPrintf format a = Some m ->
  doPrintf (format +:+ lit) a = Some (m +:+ lit).
Proof. intros Hlit. apply (doPrintf_literal_tail_aux lit Hlit format). Qed.

(** The format string that [logWrite]'s closure hands to [Printf]. *)
Lemma doPrintf_logWrite (T : string) (ctx : list string) (format : string)
    (a : list Value) (m : string) :
  literal T = true -> forallb literal ctx = true ->
  closes format a = true -> doPrintf format a = Some m ->
  doPrintf ((T +:+ "[" +:+ Join ctx "|" +:+ "]") +:+ "<" +:+ format +:+ ">") a
  = Some (T +:+ "[" +:+ Join ctx "|" +:+ "]" +:+ "<" +:+ m +:+ ">").
Proof.
  intros HT Hctx Hc Hm.
  rewrite <- (append_assoc _ "<" (format +:+ ">")).
  rewrite doPrintf_literal_head.
  - rewrite (doPrintf_literal_tail ">" format a m eq_refl Hc Hm). cbn.
    rewrite !append_assoc. cbn. rewrite !append_assoc. reflexivity.
  - repeat apply literal_app; try reflexivity; [exact HT|].
    now apply Join_literal.
Qed.

Lemma endsWithNewline_app (s t : string) :
  t <> "" -> endsWithNewline (s +:+ t) = endsWithNewline t.
Proof.
  intros Ht. induction s as [|c s IH]; [reflexivity|].
  cbn [append endsWithNewline]. rewrite IH.
  destruct (s +:+ t) eqn:E; [|reflexivity].
  destruct s; [cbn in E; contradiction | discriminate].
Qed.

(* ================================================================= *)
(** ** The heap operations *)

Section Heap.
Context {L : Type}.
Implicit Types (s : State L) (l : loc) (v : L).

Lemma state_eta s : mkState (heap s) (world s) = s.
Proof. now destruct s. Qed.

Lemma load_ok l s v : heap s !! l = Some v -> load l s = Ok (v, s).
Proof. intros H. unfold load. now rewrite H. Qed.

Lemma load_bad l s : heap s !! l = None -> load l s = Fault BadPointer.
Proof. intros H. unfold load. now rewrite H. Qed.

Lemma store_ok l (upd : L -> L) s v :
  heap s !! l = Some v ->
  store l upd s = Ok (tt, mkState (<[l := upd v]> (heap s)) (world s)).
Proof. intros H. unfold store. now rewrite H. Qed.

Lemma store_bad l (upd : L -> L) s :
  heap s !! l = None -> store l upd s = Fault BadPointer.
Proof. intros H. unfold store. now rewrite H. Qed.

Lemma alloc_lookup v s :
  (heap s ++ [v]) !! length (heap s) = Some v.
Proof. now apply list_lookup_middle. Qed.

Lemma alloc_insert v v' s :
  <[length (heap s) := v']> (heap s ++ [v]) = heap s ++ [v'].
Proof.
  rewrite <- (Nat.add_0_r (length (heap s))) at 1. now rewrite insert_app_r.
Qed.
End Heap.

(* ================================================================= *)
(** ** [Level] and [New] *)

Ltac case_level level :=
  unfold recognized, arm in *;
  destruct (String.eqb level LevelDebug) eqn:?;
  [| destruct (String.eqb level LevelInfo) eqn:?;
     [| destruct (String.eqb level LevelError) eqn:? ] ].

(** [Level] on an allocated logger: it returns its receiver and replaces
    the struct behind it by [arm]; nothing else changes. *)
Lemma Level_ok (l : loc) (level : string) (s : State Logger) (v : Logger) :
  heap s !! l = Some v ->
  Level l level s = Ok (l, mkState (<[l := arm level l v]> (heap s)) (world s)).
Proof.
  intros H. pose proof (lookup_lt_Some _ _ _ H) as Hlt.
  unfold Level, bind, store, ret. case_level level; rewrite ?H; cbn [heap world];
    rewrite ?list_lookup_insert_eq by (rewrite ?length_insert; exact Hlt);
    cbn [heap world];
    rewrite ?list_lookup_insert_eq by (rewrite ?length_insert; exact Hlt);
    rewrite ?list_insert_insert_eq; try reflexivity.
  cbv beta iota. now rewrite (list_insert_id _ _ _ H), state_eta.
Qed.

(** Through a pointer that holds no logger, the recognized levels fault
    at their first assignment; any other string touches nothing. *)
Lemma Level_bad (l : loc) (level : string) (s : State Logger) :
  heap s !! l = None ->
  Level l level s = if recognized level then Fault BadPointer else Ok (l, s).
Proof.
  intros H. unfold Level, bind. case_level level; cbn;
    rewrite ?(store_bad _ _ _ H); reflexivity.
Qed.

(** [New] never faults: it allocates the all-no-op struct at the next
    address and arms it once. *)
Lemma New_ok (c : Cfg) (s : State Logger) :
  New c s =
  Ok (length (heap s),
      mkState (heap s ++ [arm (Cfg.Level c) (length (heap s)) (fresh c)]) (world s)).
Proof.
  unfold New. unfold bind at 1. unfold alloc. unfold bind.
  rewrite (Level_ok _ _ _ (fresh c)) by apply alloc_lookup.
  cbn [heap world]. now rewrite alloc_insert.
Qed.

Lemma arm_log (level : string) (l : loc) (v : Logger) : log (arm level l v) = log v.
Proof. now case_level level. Qed.

Lemma arm_idempotent (level : string) (l : loc) (v : Logger) :
  arm level l (arm level l v) = arm level l v.
Proof. unfold arm. now repeat destruct (String.eqb level _). Qed.

(** Arming never disarms. *)
Lemma arm_monotone (level : string) (l : loc) (v : Logger) (sev : Severity) :
  active (slot sev v) = true -> active (slot sev (arm level l v)) = true.
Proof. intros H. case_level level; destruct sev; cbn; auto. Qed.

Lemma arm_ladder (level : string) (l : loc) (v : Logger) :
  ladder v = true -> ladder (arm level l v) = true.
Proof.
  unfold ladder. case_level level; cbn; try tauto;
    destruct (active (debugFn v)), (active (infoFn v)), (active (errorFn v));
    cbn; auto.
Qed.

(** The entry points on an allocated logger: the slot is called, the
    state is returned as it was. *)
Lemma entry_ok (sev : Severity) (l : loc) (ctx : list string)
    (s : State Logger) (v : Logger) :
  heap s !! l = Some v ->
  entry sev l ctx s = call (slot sev v) (tag sev) ctx s.
Proof.
  intros H. destruct sev; cbn [entry slot tag];
    unfold Error, Info, Debug, bind; now rewrite (load_ok _ _ _ H).
Qed.

Lemma call_ok (f : LoggerFunc) (level : string) (ctx : list string) (s : State Logger) :
  call f level ctx s =
  Ok (match f with
      | NoOpFn => noOpPrint
      | logWriteOf l => writePrint l (level +:+ "[" +:+ Join ctx "|" +:+ "]")
      end, s).
Proof. now destruct f. Qed.

Lemma recognized_false (level : string) :
  level <> LevelError -> level <> LevelInfo -> level <> LevelDebug ->
  recognized level = false.
Proof.
  intros HE HI HD. unfold recognized.
  destruct (String.eqb_spec level LevelDebug); [contradiction|].
  destruct (String.eqb_spec level LevelInfo); [contradiction|].
  destruct (String.eqb_spec level LevelError); [contradiction|]. reflexivity.
Qed.

Lemma arm_unrecognized (level : string) (l : loc) (v : Logger) :
  recognized level = false -> arm level l v = v.
Proof. intros H. case_level level; cbn in H; congruence. Qed.

Lemma arm_selfBound (level : string) (l : loc) (v : Logger) :
  selfBound l v = true -> selfBound l (arm level l v) = true.
Proof.
  unfold selfBound. intros H.
  apply andb_true_iff in H as [H Hd]. apply andb_true_iff in H as [He Hi].
  case_level level; cbn; rewrite ?Nat.eqb_refl, ?He, ?Hi, ?Hd; reflexivity.
Qed.

(** A run of [Level] calls returns its receiver and only replaces the
    struct behind it, by repeated [arm]. *)
Lemma Levels_ok (levels : list string) (l : loc) (s : State Logger) (v : Logger) :
  heap s !! l = Some v ->
  Levels l levels s =
  Ok (l, mkState (<[l := fold_left (fun u level => arm level l u) levels v]> (heap s))
                 (world s)).
Proof.
  revert s v. induction levels as [|level more IH]; intros s v H.
  - cbn. now rewrite (list_insert_id _ _ _ H), state_eta.
  - cbn [Levels fold_left]. unfold bind. rewrite (Level_ok _ _ _ _ H).
    rewrite (IH _ (arm level l v)); cbn [heap world].
    + now rewrite list_insert_insert_eq.
    + apply list_lookup_insert_eq. eapply lookup_lt_Some, H.
Qed.

Lemma fold_arm_ladder (levels : list string) (l : loc) (v : Logger) :
  ladder v = true ->
  ladder (fold_left (fun u level => arm level l u) levels v) = true.
Proof.
  revert v. induction levels as [|level more IH]; intros v H; [exact H|].
  cbn. apply IH. now apply arm_ladder.
Qed.

(** What the closure of the write path does when it is called. *)
Lemma invoke_writePrint (l : loc) (prefix format : string) (a : list Value)
    (s : State Logger) (v : Logger) :
  heap s !! l = Some v ->
  invoke (writePrint l prefix) format a s =
  Ok (tt, mkState (heap s)
            (Output (log v) 132
               (Sprintf (sprintfOther (world s)) (prefix +:+ "<" +:+ format +:+ ">") a)
               (world s))).
Proof.
  intros H. unfold invoke, bind. now rewrite (load_ok _ _ _ H).
Qed.

(** Calling any returned closure leaves every logger struct as it was. *)
Lemma invoke_heap (f : PrintFunc) (format : string) (a : list Value)
    (s s' : State Logger) (u : unit) :
  invoke f format a s = Ok (u, s') -> heap s' = heap s.
Proof.
  destruct f as [|l prefix]; cbn.
  - unfold ret. intros H. now injection H as _ <-.
  - unfold bind, load. destruct (heap s !! l); [|discriminate].
    unfold inWorld, Printf. intros H. now injection H as _ <-.
Qed.

Lemma tag_literal (sev : Severity) : literal (tag sev) = true.
Proof. now destruct sev. Qed.

(* ================================================================= *)
(** ** The arming of the slots *)

(** From the all-no-op struct, a recognized level arms exactly its own
    slot and the ones below it. *)
Lemma arm_fresh (level : string) (l : loc) (v : Logger) :
  errorFn v = NoOpFn -> infoFn v = NoOpFn -> debugFn v = NoOpFn ->
  recognized level = true ->
  active (errorFn (arm level l v)) = true
  /\ (active (infoFn (arm level l v)) = true <-> level = LevelInfo \/ level = LevelDebug)
  /\ (active (debugFn (arm level l v)) = true <-> level = LevelDebug).
Proof.
  intros He Hi Hd Hrec. unfold recognized, arm in *.
  destruct (String.eqb_spec level LevelDebug) as [->|ND].
  { cbn. intuition. }
  destruct (String.eqb_spec level LevelInfo) as [->|NI].
  { cbn. rewrite Hd. cbn. intuition discriminate. }
  destruct (String.eqb_spec level LevelError) as [->|NE]; [|discriminate].
  cbn. rewrite Hi, Hd. cbn. intuition discriminate.
Qed.

(** The same through [Level], on an allocated logger with no slot armed. *)
Lemma Level_from_unarmed (l : loc) (level : string) (s : State Logger) (v : Logger) :
  heap s !! l = Some v ->
  errorFn v = NoOpFn -> infoFn v = NoOpFn -> debugFn v = NoOpFn ->
  recognized level = true ->
  exists v',
    Level l level s = Ok (l, mkState (<[l := v']> (heap s)) (world s))
    /\ active (errorFn v') = true
    /\ (active (infoFn v') = true <-> level = LevelInfo \/ level = LevelDebug)
    /\ (active (debugFn v') = true <-> level = LevelDebug).
Proof.
  intros H He Hi Hd Hrec. exists (arm level l v).
  split; [now apply Level_ok | now apply arm_fresh].
Qed.

(** The logger [New] returns: allocated, writing to standard output with
    the configured prefix and a space, its slots its own. *)
Lemma New_logger (c : Cfg) (s : State Logger) :
  exists (l : loc) (s' : State Logger) (v : Logger),
    New c s = Ok (l, s')
    /\ heap s' !! l = Some v
    /\ log v = stdlog_New Stdout (Cfg.Prefix c +:+ " ") (Cfg.Flags c)
    /\ selfBound l v = true
    /\ world s' = world s.
Proof.
  do 3 eexists. split; [apply New_ok|]. split; [apply alloc_lookup|].
  split; [apply arm_log|]. split; [now apply arm_selfBound|reflexivity].
Qed.

(** C1 — the cumulative arming law, at a logger that was armed higher
    before: constructed at "Debug" and then set to "Error", the struct
    still has its Info and Debug slots on the write path, and a Debug call
    still writes its line.  [Level] only ever assigns the write path. *)
Theorem Level_Error_after_Debug_still_writes :
  exists s s',
    (let* l := New (Cfg.mk "Debug" "svc" 0) in Level l "Error") emptyState
      = Ok (0%nat, s)
    /\ heap s !! 0%nat
       = Some (mkLogger (stdlog_New Stdout "svc " 0)
                        (logWriteOf 0) (logWriteOf 0) (logWriteOf 0))
    /\ (let* f := Debug 0 ["x"] in invoke f "val=%d" [VInt 7]) s = Ok (tt, s')
    /\ stdout (world s') = ["svc DBG[x]<val=7>" +:+ newline].
Proof. do 2 eexists. repeat split. Qed.

(* ================================================================= *)
(** ** The written line *)

Ltac string_assoc :=
  repeat first [rewrite append_assoc | progress cbn [append]].

Lemma formatHeader_layout (P : string) (flags : Z) (dst : Writer)
    (file : string) (line : N) (w : World) :
  formatHeader (stdlog_New dst (P +:+ " ") flags) file line w
  = lineHeader P flags (decorations flags file line w).
Proof.
  unfold formatHeader, lineHeader. cbn [flag prefix stdlog_New].
  destruct (has flags Lmsgprefix).
  - reflexivity.
  - rewrite append_nil_r. now string_assoc.
Qed.

(** The written line for a template of bare verbs: with contexts free of
    ['%'] and a template of [doPrintf]'s fragment that closes, the entry
    point returns a closure and leaves the state alone, and calling the
    closure appends exactly one record to standard output. *)
Lemma plain_line_format (sev : Severity) (l : loc) (s : State Logger)
    (v : Logger) (P : string) (flags : Z) (ctx : list string)
    (format : string) (a : list Value) (m : string) :
  heap s !! l = Some v ->
  log v = stdlog_New Stdout (P +:+ " ") flags ->
  slot sev v = logWriteOf l ->
  forallb literal ctx = true ->
  doPrintf format a = Some m ->
  closes format a = true ->
  exists f,
    entry sev l ctx s = Ok (f, s)
    /\ invoke f format a s =
       Ok (tt, mkState (heap s)
                 (write Stdout
                    (lineHeader P flags
                       (decorations flags (callerFile (world s)) 132 (world s))
                     +:+ tag sev +:+ "[" +:+ Join ctx "|" +:+ "]"
                     +:+ "<" +:+ m +:+ ">" +:+ newline)
                    (world s))).
Proof.
  intros H Hlog Hslot Hctx Hm Hcl. eexists. split.
  - rewrite (entry_ok _ _ _ _ _ H), Hslot. apply call_ok.
  - rewrite (invoke_writePrint _ _ _ _ _ _ H). unfold Sprintf.
    rewrite (doPrintf_logWrite _ _ _ _ _ (tag_literal sev) Hctx Hcl Hm).
    unfold Output. rewrite Hlog, formatHeader_layout. cbn [out stdlog_New].
    do 4 f_equal.
    replace (tag sev +:+ "[" +:+ Join ctx "|" +:+ "]" +:+ "<" +:+ m +:+ ">")
      with ((tag sev +:+ "[" +:+ Join ctx "|" +:+ "]" +:+ "<" +:+ m) +:+ ">")
      by now string_assoc.
    rewrite endsWithNewline_app by discriminate. cbn [endsWithNewline Ascii.eqb Bool.eqb].
    now string_assoc.
Qed.


(* ================================================================= *)
(** ** The scanner and the wrapping of the template *)

Lemma inRange_bracket (lo hi : N) :
  (128 <= lo)%N -> inRange lo hi ">" = false.
Proof.
  intros H. unfold inRange. apply andb_false_iff. left.
  apply N.leb_gt. cbn. lia.
Qed.

(** The byte ['>'] behind a format never completes a rune. *)
Lemma runeSize_bracket (c : ascii) (rest : string) :
  runeSize c (rest +:+ ">") = runeSize c rest.
Proof.
  unfold runeSize.
  destruct (N_of_ascii c <? 194)%N; [reflexivity|].
  destruct (N_of_ascii c <? 224)%N.
  { destruct rest as [|c1 rest]; [|reflexivity].
    cbn [append]. now rewrite inRange_bracket. }
  destruct (N_of_ascii c <? 240)%N.
  { destruct rest as [|c1 [|c2 rest]]; try reflexivity; cbn [append].
    rewrite (inRange_bracket 128 191) by reflexivity. now rewrite andb_false_r. }
  destruct (N_of_ascii c <? 245)%N; [|reflexivity].
  destruct rest as [|c1 [|c2 [|c3 rest]]]; try reflexivity; cbn [append].
  rewrite (inRange_bracket 128 191) by reflexivity. now rewrite andb_false_r.
Qed.

(** Nor does it close an argument index. *)
Lemma beforeBracket_bracket (rest : string) :
  beforeBracket (rest +:+ ">") = beforeBracket rest.
Proof.
  induction rest as [|c rest IH]; [reflexivity|].
  rewrite append_cons. cbn [beforeBracket]. now rewrite IH.
Qed.

Lemma indexLook_bracket (rest : string) (r : option N * nat) :
  indexLook rest = Some r -> indexLook (rest +:+ ">") = Some r.
Proof.
  destruct rest as [|c [|c2 rest]].
  - intros H. exact H.
  - cbn [indexLook append beforeBracket].
    destruct (Ascii.eqb c "]"); [discriminate 1|]. intros H. exact H.
  - intros H.
    change (indexLook (String c (String c2 rest) +:+ ">"))
      with (match beforeBracket (String c (String c2 rest) +:+ ">") with
            | Some inner => Some (number inner, S (String.length inner))
            | None => Some (None, 0%nat)
            end).
    rewrite beforeBracket_bracket. exact H.
Qed.

Section Wrapping.
Variable render : Render.
Variable a0 : list Value.

Lemma onVerb_bracket (st : SState) (d : DState) (c : ascii) (rest : string) :
  onVerb render st d c (rest +:+ ">") = onVerb render st d c rest.
Proof. unfold onVerb. now rewrite runeSize_bracket. Qed.

Lemma onIndex_bracket (st : SState) (d : DState) (m : Mode) (rest : string)
    (out : string) (st' : SState) :
  onIndex a0 st d m rest = Go out st' ->
  onIndex a0 st d m (rest +:+ ">") = Go out st'.
Proof.
  unfold onIndex. destruct (indexLook rest) as [r|] eqn:E; [|discriminate 1].
  now rewrite (indexLook_bracket _ _ E).
Qed.

Lemma onPosC_bracket (st : SState) (d : DState) (c : ascii) (rest : string)
    (out : string) (st' : SState) :
  onPosC render a0 st d c rest = Go out st' ->
  onPosC render a0 st d c (rest +:+ ">") = Go out st'.
Proof.
  unfold onPosC. destruct (negb (dafter d) && Ascii.eqb c "[").
  - apply onIndex_bracket.
  - now rewrite onVerb_bracket.
Qed.

Lemma onPrecStart_bracket (st : SState) (d : DState) (c : ascii) (rest : string)
    (out : string) (st' : SState) :
  onPrecStart render a0 st d c rest = Go out st' ->
  onPrecStart render a0 st d c (rest +:+ ">") = Go out st'.
Proof.
  unfold onPrecStart.
  destruct (Ascii.eqb c "*"); [trivial|].
  destruct (isDigit c); [trivial|]. apply onPosC_bracket.
Qed.

Lemma onPosB_bracket (st : SState) (d : DState) (c : ascii) (rest : string)
    (out : string) (st' : SState) :
  onPosB render a0 st d c rest = Go out st' ->
  onPosB render a0 st d c (rest +:+ ">") = Go out st'.
Proof.
  unfold onPosB. destruct (Ascii.eqb c "[").
  - apply onIndex_bracket.
  - apply onPrecStart_bracket.
Qed.

Lemma onPrecCheck_bracket (st : SState) (d : DState) (c : ascii) (rest : string)
    (out : string) (st' : SState) :
  onPrecCheck render a0 st d c rest = Go out st' ->
  onPrecCheck render a0 st d c (rest +:+ ">") = Go out st'.
Proof.
  unfold onPrecCheck. destruct (Ascii.eqb c "."); [trivial|].
  apply onPosC_bracket.
Qed.

Lemma onWidthStart_bracket (st : SState) (d : DState) (c : ascii) (rest : string)
    (out : string) (st' : SState) :
  onWidthStart render a0 st d c rest = Go out st' ->
  onWidthStart render a0 st d c (rest +:+ ">") = Go out st'.
Proof.
  unfold onWidthStart.
  destruct (Ascii.eqb c "*"); [trivial|].
  destruct (isDigit c); [trivial|]. apply onPrecCheck_bracket.
Qed.

Lemma onPosA_bracket (st : SState) (d : DState) (c : ascii) (rest : string)
    (out : string) (st' : SState) :
  onPosA render a0 st d c rest = Go out st' ->
  onPosA render a0 st d c (rest +:+ ">") = Go out st'.
Proof.
  unfold onPosA. destruct (Ascii.eqb c "[").
  - apply onIndex_bracket.
  - apply onWidthStart_bracket.
Qed.

(** A step the scanner takes inside the format is the step it takes when
    the format is followed by ['>']: neither look ahead sees the byte. *)
Lemma next_bracket (st : SState) (c : ascii) (rest : string)
    (out : string) (st' : SState) :
  next render a0 st c rest = Go out st' ->
  next render a0 st c (rest +:+ ">") = Go out st'.
Proof.
  unfold next. destruct (pos st) as [|d]; [trivial|].
  destruct (dmode d); trivial.
  - destruct (isChar c "#0+- "); [trivial|]. apply onPosA_bracket.
  - apply onWidthStart_bracket.
  - destruct (isDigit c); [trivial|]. apply onPrecCheck_bracket.
  - apply onPrecCheck_bracket.
  - apply onPosB_bracket.
  - apply onPrecStart_bracket.
  - destruct (isDigit c); [trivial|]. apply onPosC_bracket.
  - apply onPosC_bracket.
  - now rewrite onVerb_bracket.
Qed.

(** The closing bracket behind a format the scanner accepts is copied
    behind what the format prints: the scan of the format ends outside a
    directive, with every operand taken or the scan reordered. *)
Lemma scanFrom_bracket (format : string) :
  forall (st : SState) (m : string),
    scanFrom render a0 st format = Some m ->
    scanFrom render a0 st (format +:+ ">") = Some (m +:+ ">").
Proof.
  induction format as [|c format IH]; intros st m H.
  - cbn [scanFrom] in H. destruct (accepts st) eqn:Ea; [|discriminate H].
    injection H as <-. cbn [append scanFrom]. unfold next.
    unfold accepts in Ea. destruct (pos st) eqn:Ep; [|discriminate Ea].
    cbn [Ascii.eqb Bool.eqb]. cbn [scanFrom]. unfold accepts. rewrite Ep, Ea.
    reflexivity.
  - rewrite append_cons. cbn [scanFrom] in H |- *.
    destruct (next render a0 st c format) as [|out st'] eqn:E; [discriminate H|].
    rewrite (next_bracket _ _ _ _ _ E).
    apply fmap_Some in H as (x & Hx & ->).
    rewrite (IH _ _ Hx). cbn [fmap option_fmap option_map].
    now rewrite append_assoc.
Qed.

(** Text without ['%'] in front of a format is copied. *)
Lemma scanFrom_literal_head (lit format : string) (st : SState) :
  literal lit = true -> pos st = PText ->
  scanFrom render a0 st (lit +:+ format)
  = append lit <$> scanFrom render a0 st format.
Proof.
  intros Hlit Hpos. induction lit as [|c lit IH].
  - cbn. now destruct (scanFrom render a0 st format).
  - cbn [literal] in Hlit. apply andb_true_iff in Hlit as [Hc Hlit].
    rewrite append_cons. cbn [scanFrom]. unfold next. rewrite Hpos.
    destruct (Ascii.eqb c "%"); [discriminate Hc|].
    rewrite (IH Hlit). now destruct (scanFrom render a0 st format).
Qed.

End Wrapping.

(** The format string of [logWrite]'s closure, scanned. *)
Lemma scanPrintf_logWrite (render : Render) (T : string) (ctx : list string)
    (format : string) (a : list Value) (m : string) :
  literal T = true -> forallb literal ctx = true ->
  scanPrintf render format a = Some m ->
  scanPrintf render ((T +:+ "[" +:+ Join ctx "|" +:+ "]") +:+ "<" +:+ format +:+ ">") a
  = Some (T +:+ "[" +:+ Join ctx "|" +:+ "]" +:+ "<" +:+ m +:+ ">").
Proof.
  intros HT Hctx Hm. unfold scanPrintf in *.
  rewrite <- (append_assoc _ "<" (format +:+ ">")).
  rewrite scanFrom_literal_head; [|now (repeat apply literal_app; try reflexivity; [exact HT|]; apply Join_literal)|reflexivity].
  rewrite (scanFrom_bracket render a format _ m Hm). cbn.
  rewrite !append_assoc. cbn. rewrite !append_assoc. reflexivity.
Qed.

(** A bare verb of [doPrintf]'s fragment is a verb for the scanner too,
    and one byte long. *)
Lemma plain_verb_next (render : Render) (a0 : list Value) (v : ascii)
    (rest : string) (a : list Value) :
  Ascii.eqb v "%" = true \/ plainVerb v = true ->
  next render a0 (mkS a false (PDir (mkD MFlags "" [] true false))) v rest
  = Go (directiveOut render (String v "")
          (if Ascii.eqb v "%" then [] else [head a]))
       (mkS (if Ascii.eqb v "%" then a else tail a) false PText).
Proof.
  intros H. destruct (Ascii.eqb v "%") eqn:Hpct.
  - apply Ascii.eqb_eq in Hpct. subst v. reflexivity.
  - destruct H as [H|H]; [discriminate H|].
    unfold plainVerb in H.
    apply andb_true_iff in H as [H _]. apply andb_true_iff in H as [H1 H2].
    apply negb_true_iff in H1. unfold isChar in H1.
    cbn [list_ascii_of_string existsb] in H1.
    repeat (apply orb_false_iff in H1 as [? H1]).
    assert (Hsize : runeSize v rest = 1%nat).
    { apply Nat.ltb_lt in H2. unfold nat_of_ascii in H2. unfold runeSize.
      destruct (N.ltb_spec (N_of_ascii v) 194); [reflexivity | lia]. }
    unfold next, onPosA, onWidthStart, onPrecCheck, onPosC, onVerb, isDigit, isChar.
    cbn [pos dmode dafter dgood dtext dreqs ops reord negb andb
         list_ascii_of_string existsb].
    rewrite Hsize, Hpct.
    repeat match goal with
           | E : Ascii.eqb v _ = false |- _ => rewrite E; clear E
           end.
    reflexivity.
Qed.

Lemma scanFrom_text_cons (render : Render) (a0 : list Value) (c : ascii)
    (rest : string) (a : list Value) :
  Ascii.eqb c "%" = false ->
  scanFrom render a0 (mkS a false PText) (String c rest)
  = String c <$> scanFrom render a0 (mkS a false PText) rest.
Proof.
  intros E. cbn [scanFrom]. unfold next. cbn [pos]. rewrite E.
  now destruct (scanFrom render a0 (mkS a false PText) rest).
Qed.

Lemma scanFrom_plain_verb (render : Render) (a0 : list Value) (v : ascii)
    (rest : string) (a : list Value) :
  Ascii.eqb v "%" = true \/ plainVerb v = true ->
  scanFrom render a0 (mkS a false PText) (String "%" (String v rest))
  = append (directiveOut render (String v "")
              (if Ascii.eqb v "%" then [] else [head a]))
      <$> scanFrom render a0
            (mkS (if Ascii.eqb v "%" then a else tail a) false PText) rest.
Proof.
  intros Hv.
  change (scanFrom render a0 (mkS a false PText) (String "%" (String v rest)))
    with (append "" <$>
            match next render a0 (mkS a false (PDir (mkD MFlags "" [] true false)))
                    v rest with
            | Reject => None
            | Go out st' => append out <$> scanFrom render a0 st' rest
            end).
  rewrite (plain_verb_next render a0 v rest a Hv).
  now destruct (scanFrom render a0 _ rest).
Qed.

(** On a format of [doPrintf]'s fragment that the scanner accepts, the
    two print the same, and the format closes. *)
Lemma scan_agrees_aux (render : Render) (a0 : list Value) (format : string) :
  (forall a m0 m,
      doPrintf format a = Some m0 ->
      scanFrom render a0 (mkS a false PText) format = Some m ->
      m = m0 /\ closes format a = true)
  /\ (forall c a m0 m,
        doPrintf (String c format) a = Some m0 ->
        scanFrom render a0 (mkS a false PText) (String c format) = Some m ->
        m = m0 /\ closes (String c format) a = true).
Proof.
  assert (Hnil : forall a m0 m,
             doPrintf "" a = Some m0 ->
             scanFrom render a0 (mkS a false PText) "" = Some m ->
             m = m0 /\ closes "" a = true).
  { intros [|v a] m0 m Hd Hs; [|discriminate Hs].
    cbn in Hd, Hs. injection Hd as <-. injection Hs as <-. now split. }
  induction format as [|c' format [IH1 IH2]].
  - split; [exact Hnil|].
    intros c a m0 m. rewrite doPrintf_cons, closes_cons.
    destruct (Ascii.eqb c "%") eqn:Ec; cbn [negb].
    + apply Ascii.eqb_eq in Ec. subst c. intros _ Hs. discriminate Hs.
    + rewrite (scanFrom_text_cons _ _ c "" a Ec). intros Hd Hs.
      apply fmap_Some in Hd as (x0 & Hd & ->).
      apply fmap_Some in Hs as (x & Hs & ->).
      destruct (Hnil _ _ _ Hd Hs) as [-> Hc]. now split.
  - split; [exact (IH2 c')|].
    intros c a m0 m.
    rewrite (doPrintf_cons c), (closes_cons c).
    destruct (Ascii.eqb c "%") eqn:Ec; cbn [negb].
    + apply Ascii.eqb_eq in Ec. subst c.
      destruct (Ascii.eqb c' "%") eqn:Epct.
      * rewrite scanFrom_plain_verb by now left. rewrite Epct.
        apply Ascii.eqb_eq in Epct. subst c'.
        change (directiveOut render "%" []) with "%".
        intros Hd Hs.
        apply fmap_Some in Hd as (x0 & Hd & ->).
        apply fmap_Some in Hs as (x & Hs & ->).
        destruct (IH1 _ _ _ Hd Hs) as [-> Hc]. now split.
      * destruct (plainVerb c') eqn:Eplain; cbn [negb]; [|discriminate 1].
        rewrite scanFrom_plain_verb by (right; exact Eplain). rewrite Epct.
        unfold directiveOut. rewrite Eplain.
        destruct a as [|arg a]; cbn [head tail]; intros Hd Hs;
          apply fmap_Some in Hd as (x0 & Hd & ->);
          apply fmap_Some in Hs as (x & Hs & ->);
          destruct (IH1 _ _ _ Hd Hs) as [-> Hc]; now split.
    + rewrite (scanFrom_text_cons _ _ c _ a Ec). intros Hd Hs.
      apply fmap_Some in Hd as (x0 & Hd & ->).
      apply fmap_Some in Hs as (x & Hs & ->).
      destruct (IH2 c' _ _ _ Hd Hs) as [-> Hc]. now split.
Qed.

(** And the scanner accepts every format of the fragment that closes. *)
Lemma scan_accepts_aux (render : Render) (a0 : list Value) (format : string) :
  (forall a m0,
      doPrintf format a = Some m0 -> closes format a = true ->
      scanFrom render a0 (mkS a false PText) format = Some m0)
  /\ (forall c a m0,
        doPrintf (String c format) a = Some m0 ->
        closes (String c format) a = true ->
        scanFrom render a0 (mkS a false PText) (String c format) = Some m0).
Proof.
  assert (Hnil : forall a m0,
             doPrintf "" a = Some m0 -> closes "" a = true ->
             scanFrom render a0 (mkS a false PText) "" = Some m0).
  { intros [|v a] m0 Hd Hc; [|discriminate Hc].
    cbn in Hd. injection Hd as <-. reflexivity. }
  induction format as [|c' format [IH1 IH2]].
  - split; [exact Hnil|].
    intros c a m0. rewrite doPrintf_cons, closes_cons.
    destruct (Ascii.eqb c "%") eqn:Ec; cbn [negb]; [discriminate 2|].
    rewrite (scanFrom_text_cons _ _ c "" a Ec). intros Hd Hc.
    apply fmap_Some in Hd as (x0 & Hd & ->).
    now rewrite (Hnil _ _ Hd Hc).
  - split; [exact (IH2 c')|].
    intros c a m0.
    rewrite (doPrintf_cons c), (closes_cons c).
    destruct (Ascii.eqb c "%") eqn:Ec; cbn [negb].
    + apply Ascii.eqb_eq in Ec. subst c.
      destruct (Ascii.eqb c' "%") eqn:Epct.
      * rewrite scanFrom_plain_verb by now left. rewrite Epct.
        apply Ascii.eqb_eq in Epct. subst c'.
        change (directiveOut render "%" []) with "%".
        intros Hd Hc. apply fmap_Some in Hd as (x0 & Hd & ->).
        now rewrite (IH1 _ _ Hd Hc).
      * destruct (plainVerb c') eqn:Eplain; cbn [negb]; [|discriminate 1].
        rewrite scanFrom_plain_verb by (right; exact Eplain). rewrite Epct.
        unfold directiveOut. rewrite Eplain.
        destruct a as [|arg a]; cbn [head tail]; intros Hd Hc;
          apply fmap_Some in Hd as (x0 & Hd & ->);
          now rewrite (IH1 _ _ Hd Hc).
    + rewrite (scanFrom_text_cons _ _ c _ a Ec). intros Hd Hc.
      apply fmap_Some in Hd as (x0 & Hd & ->).
      now rewrite (IH2 c' _ _ Hd Hc).
Qed.

(** The scanner extends [doPrintf]: a format of the fragment that closes
    is accepted, with the same text. *)
Lemma scan_accepts_plain (render : Render) (format : string) (a : list Value)
    (m : string) :
  doPrintf format a = Some m -> closes format a = true ->
  scanPrintf render format a = Some m.
Proof. apply (scan_accepts_aux render a format). Qed.

Lemma scan_agrees (render : Render) (format : string) (a : list Value)
    (m0 m : string) :
  doPrintf format a = Some m0 -> scanPrintf render format a = Some m ->
  m = m0 /\ closes format a = true.
Proof. apply (scan_agrees_aux render a format). Qed.

(** The world of the worked example formats directive by directive. *)
Lemma scanOther_scansAs : scansAs exampleRender scanOther.
Proof.
  intros format a m H. unfold Sprintf.
  destruct (doPrintf format a) as [m0|] eqn:E.
  - now destruct (scan_agrees _ _ _ _ _ E H) as [-> _].
  - unfold scanOther. now rewrite H.
Qed.

(** C2, as the code has it — for a logger constructed with prefix [P]
    and flags [flags] whose slot for a severity is on the write path, with
    contexts free of ['%'] and a template the scanner accepts (text and
    directives of flags, argument indexes, width, precision and verb; the
    template does not end inside a directive, and its directives take
    every operand or pick operands by index): the entry point returns a
    closure and leaves the state alone, and calling the closure appends
    exactly one record to standard output, made of the writer's header,
    the tag, the contexts in call order between brackets and joined by
    "|", the message [m] that [Sprintf] prints for the template and the
    operands, between angle brackets, and a newline.  In the header the
    prefix and its space come first and the decorations follow; they are
    swapped only when the flags contain [Lmsgprefix].  For a template of
    bare verbs nothing is asked of the world; for any other, its [Sprintf]
    formats directive by directive. *)
Theorem emitted_line_format (sev : Severity) (l : loc) (s : State Logger)
    (v : Logger) (P : string) (flags : Z) (ctx : list string)
    (format : string) (a : list Value) (render : Render) (m : string) :
  heap s !! l = Some v ->
  log v = stdlog_New Stdout (P +:+ " ") flags ->
  slot sev v = logWriteOf l ->
  forallb literal ctx = true ->
  scanPrintf render format a = Some m ->
  (doPrintf format a = None -> scansAs render (sprintfOther (world s))) ->
  Sprintf (sprintfOther (world s)) format a = m
  /\ exists f,
       entry sev l ctx s = Ok (f, s)
       /\ invoke f format a s =
          Ok (tt, mkState (heap s)
                    (write Stdout
                       (lineHeader P flags
                          (decorations flags (callerFile (world s)) 132 (world s))
                        +:+ tag sev +:+ "[" +:+ Join ctx "|" +:+ "]"
                        +:+ "<" +:+ m +:+ ">" +:+ newline)
                       (world s))).
Proof.
  intros H Hlog Hslot Hctx Hscan Hworld.
  destruct (doPrintf format a) as [m0|] eqn:E.
  - destruct (scan_agrees _ _ _ _ _ E Hscan) as [-> Hcl].
    split; [unfold Sprintf; now rewrite E|].
    exact (plain_line_format sev l s v P flags ctx format a m0
             H Hlog Hslot Hctx E Hcl).
  - specialize (Hworld eq_refl). split; [now apply Hworld|].
    eexists. split.
    + rewrite (entry_ok _ _ _ _ _ H), Hslot. apply call_ok.
    + rewrite (invoke_writePrint _ _ _ _ _ _ H).
      rewrite (Hworld _ _ _
                 (scanPrintf_logWrite render _ ctx format a m
                    (tag_literal sev) Hctx Hscan)).
      unfold Output. rewrite Hlog, formatHeader_layout. cbn [out stdlog_New].
      do 4 f_equal.
      replace (tag sev +:+ "[" +:+ Join ctx "|" +:+ "]" +:+ "<" +:+ m +:+ ">")
        with ((tag sev +:+ "[" +:+ Join ctx "|" +:+ "]" +:+ "<" +:+ m) +:+ ">")
        by now string_assoc.
      rewrite endsWithNewline_app by discriminate.
      cbn [endsWithNewline Ascii.eqb Bool.eqb].
      now string_assoc.
Qed.

(** A template with a width: prefix "svc", no flags, level "Info",
    context "req-42", template "took %5d ms", operand 42. *)
Lemma emitted_line_format_witness :
  Sprintf scanOther "took %5d ms" [VInt 42] = "took    42 ms"
  /\ exists f,
       entry SevInfo 0%nat ["req-42"]
         (mkState [arm "Info" 0%nat (fresh (Cfg.mk "Info" "svc" 0))] scanWorld)
       = Ok (f, mkState [arm "Info" 0%nat (fresh (Cfg.mk "Info" "svc" 0))] scanWorld)
       /\ invoke f "took %5d ms" [VInt 42]
            (mkState [arm "Info" 0%nat (fresh (Cfg.mk "Info" "svc" 0))] scanWorld)
          = Ok (tt, mkState [arm "Info" 0%nat (fresh (Cfg.mk "Info" "svc" 0))]
                      (write Stdout ("svc INF[req-42]<took    42 ms>" +:+ newline)
                         scanWorld)).
Proof.
  exact (emitted_line_format SevInfo 0%nat
           (mkState [arm "Info" 0%nat (fresh (Cfg.mk "Info" "svc" 0))] scanWorld)
           (arm "Info" 0%nat (fresh (Cfg.mk "Info" "svc" 0)))
           "svc" 0 ["req-42"] "took %5d ms" [VInt 42] exampleRender "took    42 ms"
           eq_refl eq_refl eq_refl eq_refl eq_refl
           (fun _ => scanOther_scansAs)).
Defined.

(** The example of the specification, a template of bare verbs: it holds
    in the world of the other examples, whose [Sprintf] is left open. *)
Example plain_template_example :
  Sprintf (sprintfOther exampleWorld) "started %s" [VString "job1"] = "started job1"
  /\ exists f,
       entry SevInfo 0%nat ["req-42"]
         (mkState [arm "Info" 0%nat (fresh (Cfg.mk "Info" "svc" 0))] exampleWorld)
       = Ok (f, mkState [arm "Info" 0%nat (fresh (Cfg.mk "Info" "svc" 0))] exampleWorld)
       /\ invoke f "started %s" [VString "job1"]
            (mkState [arm "Info" 0%nat (fresh (Cfg.mk "Info" "svc" 0))] exampleWorld)
          = Ok (tt, mkState [arm "Info" 0%nat (fresh (Cfg.mk "Info" "svc" 0))]
                      (write Stdout ("svc INF[req-42]<started job1>" +:+ newline)
                         exampleWorld)).
Proof.
  split; [reflexivity|]. eexists. split; reflexivity.
Qed.

(** What the scanner takes for each directive, shown with a rendering
    that prints the directive's text and its operands. *)
Example scan_width_and_precision :
  scanPrintf showRender "%-8s|%08.3f|%*d|%+v" [VString "a"; VInt 1; VInt 5; VInt 2; VInt 3]
  = Some "{-8s:a}|{08.3f:1}|{*d:5,2}|{+v:3}".
Proof. reflexivity. Qed.

(** An argument index moves to the operand it names, for a [*] as for
    the verb, and the operands left unused are no longer reported. *)
Example scan_argument_index :
  scanPrintf showRender "%[3]*.[2]*[1]f" [VInt 12; VInt 2; VInt 6]
  = Some "{[3]*.[2]*[1]f:6,2,12}"
  /\ scanPrintf showRender "%[1]d %#[1]x %#x" [VInt 16; VInt 17]
     = Some "{[1]d:16} {#[1]x:16} {#x:17}"
  /\ scanPrintf showRender "%[1]d" [VInt 1; VInt 2] = Some "{[1]d:1}".
Proof. repeat split. Qed.

(** A bad argument index makes the verb take no operand. *)
Example scan_bad_index :
  scanPrintf showRender "%[5]d|%[x]d|%[1]2d|%[10000010]d" [VInt 16; VInt 17]
  = Some "{[5]d:}|{[x]d:}|{[1]2d:}|{[10000010]d:}".
Proof. reflexivity. Qed.

(** Templates the scanner does not accept: one that ends inside a
    directive, one that leaves an operand unused, one whose width is too
    long a number, one that ends in an empty argument index. *)
Example scan_not_accepted :
  scanPrintf showRender "%5" [VInt 1] = None
  /\ scanPrintf showRender "%d" [VInt 1; VInt 2] = None
  /\ scanPrintf showRender "%10000010d" [VInt 1] = None
  /\ scanPrintf showRender "%[]" [VInt 1] = None.
Proof. repeat split. Qed.

(** C2, as the specification words it, fails once a decoration flag is
    set: with [Ldate] the line starts with the prefix and the date follows
    it, while the specification puts the decorations first. *)
Lemma emitted_line_format_counterexample :
  exists s',
    (let* l := New (Cfg.mk "Info" "svc" Ldate) in
     let* f := Info l ["req-42"] in
     invoke f "started %s" [VString "job1"]) emptyState = Ok (tt, s')
    /\ stdout (world s') = ["svc 2009/01/23 INF[req-42]<started job1>" +:+ newline]
    /\ stdout (world s')
       <> [specLine (decorations Ldate (callerFile exampleWorld) 132 exampleWorld)
                    "svc" InfoStr ["req-42"] "started job1" +:+ newline].
Proof.
  eexists. split; [reflexivity|]. split; [reflexivity|]. discriminate.
Qed.

(** The two end-to-end lines the specification lists. *)
Example line_svc :
  exists s',
    (let* l := New (Cfg.mk "Info" "svc" 0) in
     let* f := Info l ["req-42"] in
     invoke f "started %s" [VString "job1"]) emptyState = Ok (tt, s')
    /\ stdout (world s') = ["svc INF[req-42]<started job1>" +:+ newline].
Proof. eexists. split; reflexivity. Qed.

Example line_app :
  exists s',
    (let* l := New (Cfg.mk "Debug" "app" 0) in
     let* f := Debug l ["x"] in
     invoke f "val=%d" [VInt 7]) emptyState = Ok (tt, s')
    /\ stdout (world s') = ["app DBG[x]<val=7>" +:+ newline].
Proof. eexists. split; reflexivity. Qed.

(** The prefix the closure captures keeps the contexts in call order. *)
Example context_join :
  exists s,
    New (Cfg.mk "Error" "svc" 0) emptyState = Ok (0%nat, s)
    /\ Error 0%nat ["a"; "b"] s = Ok (writePrint 0%nat "ER[a|b]", s)
    /\ Error 0%nat ["b"; "a"; "b"] s = Ok (writePrint 0%nat "ER[b|a|b]", s).
Proof. eexists. repeat split. Qed.

(** A ['%'] inside a context is read as a directive: it takes the operand
    meant for the message. *)
Example context_with_percent :
  exists s',
    (let* l := New (Cfg.mk "Error" "svc" 0) in
     let* f := Error l ["50%s"] in
     invoke f "disk %s" [VString "full"]) emptyState = Ok (tt, s')
    /\ stdout (world s') = ["svc ER[50full]<disk %!s(MISSING)>" +:+ newline].
Proof. eexists. split; reflexivity. Qed.

(** Operands the template does not use are reported behind the closing
    angle bracket. *)
Example extra_operand :
  exists s',
    (let* l := New (Cfg.mk "Error" "svc" 0) in
     let* f := Error l [] in
     invoke f "disk" [VInt 1]) emptyState = Ok (tt, s')
    /\ stdout (world s') = ["svc ER[]<disk>%!(EXTRA int=1)" +:+ newline].
Proof. eexists. split; reflexivity. Qed.

(* ================================================================= *)
(** ** The no-op path *)

(** C3 — no-op purity: when the slot of a severity holds [NoOpFn], the
    entry point returns a closure and leaves the state alone, and calling
    that closure with any template and any operands, in any state, returns
    with that state unchanged: nothing is formatted, nothing is written. *)
Theorem noop_purity (sev : Severity) (l : loc) (ctx : list string)
    (s : State Logger) (v : Logger) :
  heap s !! l = Some v ->
  slot sev v = NoOpFn ->
  exists f,
    entry sev l ctx s = Ok (f, s)
    /\ forall (format : string) (a : list Value) (s1 : State Logger),
         invoke f format a s1 = Ok (tt, s1).
Proof.
  intros H Hslot. exists noOpPrint. split.
  - now rewrite (entry_ok _ _ _ _ _ H), Hslot.
  - reflexivity.
Qed.

Lemma noop_purity_witness :
  exists f,
    entry SevDebug 0%nat ["x"]
      (mkState [arm "Info" 0%nat (fresh (Cfg.mk "Info" "svc" 0))] exampleWorld)
    = Ok (f, mkState [arm "Info" 0%nat (fresh (Cfg.mk "Info" "svc" 0))] exampleWorld)
    /\ forall (format : string) (a : list Value) (s1 : State Logger),
         invoke f format a s1 = Ok (tt, s1).
Proof.
  exact (noop_purity SevDebug 0%nat ["x"]
           (mkState [arm "Info" 0%nat (fresh (Cfg.mk "Info" "svc" 0))] exampleWorld)
           (arm "Info" 0%nat (fresh (Cfg.mk "Info" "svc" 0)))
           eq_refl eq_refl).
Defined.

(* ================================================================= *)
(** ** Unknown level names *)

(** C4 — unknown level at construction: for a configuration whose level
    is none of "Error", "Info", "Debug", [New] returns a logger (no fault)
    whose three slots hold [NoOpFn]; each entry point then returns the
    discarding closure, which leaves any state unchanged. *)
Theorem New_unknown_level (c : Cfg) (s : State Logger) :
  Cfg.Level c <> LevelError -> Cfg.Level c <> LevelInfo ->
  Cfg.Level c <> LevelDebug ->
  exists (l : loc) (s' : State Logger) (v : Logger),
    New c s = Ok (l, s')
    /\ heap s' !! l = Some v
    /\ errorFn v = NoOpFn /\ infoFn v = NoOpFn /\ debugFn v = NoOpFn
    /\ (forall sev ctx, entry sev l ctx s' = Ok (noOpPrint, s'))
    /\ (forall format a (s1 : State Logger), invoke noOpPrint format a s1 = Ok (tt, s1)).
Proof.
  intros HE HI HD. pose proof (recognized_false _ HE HI HD) as Hrec.
  exists (length (heap s)), (mkState (heap s ++ [fresh c]) (world s)), (fresh c).
  assert (Hl : (heap s ++ [fresh c]) !! length (heap s) = Some (fresh c))
    by apply alloc_lookup.
  split; [|split; [exact Hl|]].
  - now rewrite New_ok, (arm_unrecognized _ _ _ Hrec).
  - repeat split; try reflexivity.
    intros sev ctx. rewrite (entry_ok sev _ ctx _ (fresh c)) by exact Hl.
    now destruct sev.
Qed.

Lemma New_unknown_level_witness :
  exists (l : loc) (s' : State Logger) (v : Logger),
    New (Cfg.mk "bogus" "svc" 0) emptyState = Ok (l, s')
    /\ heap s' !! l = Some v
    /\ errorFn v = NoOpFn /\ infoFn v = NoOpFn /\ debugFn v = NoOpFn
    /\ (forall sev ctx, entry sev l ctx s' = Ok (noOpPrint, s'))
    /\ (forall format a (s1 : State Logger), invoke noOpPrint format a s1 = Ok (tt, s1)).
Proof.
  apply (New_unknown_level (Cfg.mk "bogus" "svc" 0) emptyState); discriminate.
Defined.

(** C5 — unknown level on re-arm: for a level that is none of "Error",
    "Info", "Debug", [Level] returns its receiver and the state it was
    called in, whatever that state is: no slot is assigned. *)
Theorem Level_unknown_level (l : loc) (level : string) (s : State Logger) :
  level <> LevelError -> level <> LevelInfo -> level <> LevelDebug ->
  Level l level s = Ok (l, s).
Proof.
  intros HE HI HD. pose proof (recognized_false _ HE HI HD) as Hrec.
  unfold Level, bind, ret. case_level level; cbn in Hrec; try discriminate.
  reflexivity.
Qed.

(** The instance the specification lists: a logger armed at "Info". *)
Lemma Level_unknown_level_witness :
  Level 0%nat "bogus"
    (mkState [mkLogger (stdlog_New Stdout "svc " 0) (logWriteOf 0) NoOpFn (logWriteOf 0)]
             exampleWorld)
  = Ok (0%nat,
        mkState [mkLogger (stdlog_New Stdout "svc " 0) (logWriteOf 0) NoOpFn (logWriteOf 0)]
                exampleWorld).
Proof. apply Level_unknown_level; discriminate. Defined.

(* ================================================================= *)
(** ** The ladder *)

Lemma ladder_spelled (v : Logger) :
  ladder v = true ->
  (active (debugFn v) = true -> active (infoFn v) = true /\ active (errorFn v) = true)
  /\ (active (infoFn v) = true -> active (errorFn v) = true).
Proof.
  unfold ladder.
  destruct (active (debugFn v)), (active (infoFn v)), (active (errorFn v));
    cbn; intuition discriminate.
Qed.

(** C6 — ladder prefix invariant: [New] followed by any finite run of
    [Level] calls with arbitrary strings returns a logger (no fault) whose
    armed slots form a prefix of Error, Info, Debug: Debug armed implies
    Info and Error armed, Info armed implies Error armed. *)
Theorem ladder_invariant (c : Cfg) (levels : list string) (s : State Logger) :
  exists (l : loc) (s' : State Logger) (v : Logger),
    (let* l := New c in Levels l levels) s = Ok (l, s')
    /\ heap s' !! l = Some v
    /\ ladder v = true
    /\ (active (debugFn v) = true ->
        active (infoFn v) = true /\ active (errorFn v) = true)
    /\ (active (infoFn v) = true -> active (errorFn v) = true).
Proof.
  set (l := length (heap s)).
  set (v0 := arm (Cfg.Level c) l (fresh c)).
  set (v := fold_left (fun u level => arm level l u) levels v0).
  exists l, (mkState (heap s ++ [v]) (world s)), v.
  assert (Hv : ladder v = true).
  { apply fold_arm_ladder, arm_ladder. reflexivity. }
  split; [|split; [apply alloc_lookup|split; [exact Hv|now apply ladder_spelled]]].
  unfold bind. rewrite New_ok. fold l v0.
  rewrite (Levels_ok levels l _ v0) by apply alloc_lookup.
  cbn [heap world]. fold v. unfold l. now rewrite alloc_insert.
Qed.

Lemma ladder_invariant_witness :
  exists (l : loc) (s' : State Logger) (v : Logger),
    (let* l := New (Cfg.mk "Info" "svc" 0) in
     Levels l ["Debug"; "bogus"; "Error"]) emptyState = Ok (l, s')
    /\ heap s' !! l = Some v
    /\ ladder v = true
    /\ (active (debugFn v) = true ->
        active (infoFn v) = true /\ active (errorFn v) = true)
    /\ (active (infoFn v) = true -> active (errorFn v) = true).
Proof.
  exact (ladder_invariant (Cfg.mk "Info" "svc" 0) ["Debug"; "bogus"; "Error"]
           emptyState).
Defined.

(* ================================================================= *)
(** ** Idempotence and the returned receiver *)

(** C7 — for an allocated logger and any string, [Level] returns the
    pointer it was called on and changes the state only by replacing the
    struct behind that pointer (same address, same writer); a second call
    with the same string, on the returned pointer, returns the same pointer
    and leaves the state of the first call as it is. *)
Theorem Level_idempotent_returns_receiver (l : loc) (level : string)
    (s : State Logger) (v : Logger) :
  heap s !! l = Some v ->
  exists v',
    Level l level s = Ok (l, mkState (<[l := v']> (heap s)) (world s))
    /\ log v' = log v
    /\ Level l level (mkState (<[l := v']> (heap s)) (world s))
       = Ok (l, mkState (<[l := v']> (heap s)) (world s))
    /\ (let* l' := Level l level in Level l' level) s = Level l level s.
Proof.
  intros H. pose proof (lookup_lt_Some _ _ _ H) as Hlt.
  exists (arm level l v).
  assert (H2 : Level l level (mkState (<[l := arm level l v]> (heap s)) (world s))
               = Ok (l, mkState (<[l := arm level l v]> (heap s)) (world s))).
  { rewrite (Level_ok _ _ _ (arm level l v)) by now apply list_lookup_insert_eq.
    cbn [heap world]. now rewrite list_insert_insert_eq, arm_idempotent. }
  split; [now apply Level_ok|]. split; [apply arm_log|]. split; [exact H2|].
  unfold bind at 1. now rewrite (Level_ok _ _ _ _ H).
Qed.

Lemma Level_idempotent_returns_receiver_witness :
  exists v',
    Level 0%nat "Info" (mkState [fresh (Cfg.mk "" "svc" 0)] exampleWorld)
    = Ok (0%nat, mkState (<[0%nat := v']> [fresh (Cfg.mk "" "svc" 0)]) exampleWorld)
    /\ log v' = log (fresh (Cfg.mk "" "svc" 0))
    /\ Level 0%nat "Info"
         (mkState (<[0%nat := v']> [fresh (Cfg.mk "" "svc" 0)]) exampleWorld)
       = Ok (0%nat, mkState (<[0%nat := v']> [fresh (Cfg.mk "" "svc" 0)]) exampleWorld)
    /\ (let* l' := Level 0%nat "Info" in Level l' "Info")
         (mkState [fresh (Cfg.mk "" "svc" 0)] exampleWorld)
       = Level 0%nat "Info" (mkState [fresh (Cfg.mk "" "svc" 0)] exampleWorld).
Proof.
  exact (Level_idempotent_returns_receiver 0%nat "Info"
           (mkState [fresh (Cfg.mk "" "svc" 0)] exampleWorld)
           (fresh (Cfg.mk "" "svc" 0)) eq_refl).
Defined.

(* ================================================================= *)
(** ** The superseded implementation *)

Lemma Log1_gate (l : loc) (s : State Log1.Logger) (v : Log1.Logger)
    (ctx : list string) :
  heap s !! l = Some v ->
  Log1.LevelError <= Log1.level v ->
  Log1.Error l ctx s
    = Ok (Log1.writePrint l (Log1.ErrStr +:+ "[" +:+ Join ctx "|" +:+ "]"), s)
  /\ Log1.Info l ctx s
    = Ok (Log1.writePrint l (Log1.InfoStr +:+ "[" +:+ Join ctx "|" +:+ "]"), s)
  /\ Log1.Debug l ctx s
    = Ok (Log1.writePrint l (Log1.DebugStr +:+ "[" +:+ Join ctx "|" +:+ "]"), s).
Proof.
  intros H Hlevel. apply Z.leb_le in Hlevel.
  unfold Log1.Error, Log1.Info, Log1.Debug, bind.
  rewrite (load_ok _ _ _ H), Hlevel. repeat split.
Qed.

(** The closure of the legacy write path appends one record to the
    logger's writer. *)
Lemma Log1_invoke_writes (l : loc) (prefix format : string) (a : list Value)
    (s : State Log1.Logger) (v : Log1.Logger) :
  heap s !! l = Some v ->
  exists text,
    Log1.invoke (Log1.writePrint l prefix) format a s
    = Ok (tt, mkState (heap s) (write (out (Log1.log v)) text (world s))).
Proof.
  intros H. eexists. unfold Log1.invoke, bind. rewrite (load_ok _ _ _ H).
  reflexivity.
Qed.

(** C8 — legacy divergence: in the superseded file [LevelError] is 0, the
    lowest of the three constants, and [Info] and [Debug] test
    [level >= LevelError]; so for every legacy logger whose level is at
    least [LevelError] they return the closure of the write path, and
    calling it writes a record.  The current implementation constructed at
    "Error" returns the discarding closure from [Info] and [Debug], so the
    two implementations differ at level Error. *)
Theorem legacy_gate_divergence :
  (Log1.LevelError = 0 /\ Log1.LevelError < Log1.LevelInfo < Log1.LevelDebug)
  /\ (forall (l : loc) (s : State Log1.Logger) (v : Log1.Logger)
             (ctx : list string) (format : string) (a : list Value),
        heap s !! l = Some v ->
        Log1.LevelError <= Log1.level v ->
        exists fi fd,
          Log1.Info l ctx s = Ok (fi, s) /\ Log1.Debug l ctx s = Ok (fd, s)
          /\ fi <> Log1.noOpPrint /\ fd <> Log1.noOpPrint
          /\ (exists text, Log1.invoke fi format a s
                = Ok (tt, mkState (heap s) (write (out (Log1.log v)) text (world s))))
          /\ (exists text, Log1.invoke fd format a s
                = Ok (tt, mkState (heap s) (write (out (Log1.log v)) text (world s)))))
  /\ (forall (c : Cfg) (s : State Logger) (ctx : list string),
        Cfg.Level c = LevelError ->
        exists (l : loc) (s' : State Logger),
          New c s = Ok (l, s')
          /\ Info l ctx s' = Ok (noOpPrint, s')
          /\ Debug l ctx s' = Ok (noOpPrint, s')).
Proof.
  split; [repeat split|]. split.
  - intros l s v ctx format a H Hlevel.
    destruct (Log1_gate l s v ctx H Hlevel) as (_ & HI & HD).
    do 2 eexists. split; [exact HI|]. split; [exact HD|].
    split; [discriminate|]. split; [discriminate|].
    split; now apply Log1_invoke_writes.
  - intros c s ctx Hc. do 2 eexists. split; [apply New_ok|].
    rewrite Hc.
    split.
    + rewrite (entry_ok SevInfo _ ctx _ (arm LevelError (length (heap s)) (fresh c)))
        by apply alloc_lookup.
      reflexivity.
    + rewrite (entry_ok SevDebug _ ctx _ (arm LevelError (length (heap s)) (fresh c)))
        by apply alloc_lookup.
      reflexivity.
Qed.

(** A legacy logger as [New] leaves it (level 0), and a current one
    constructed at "Error". *)
Lemma legacy_gate_divergence_witness :
  (exists fi fd,
      Log1.Info 0%nat ["x"]
        (mkState [Log1.mkLogger (stdlog_New Stdout "svc " 0) 0] exampleWorld)
      = Ok (fi, mkState [Log1.mkLogger (stdlog_New Stdout "svc " 0) 0] exampleWorld)
      /\ Log1.Debug 0%nat ["x"]
           (mkState [Log1.mkLogger (stdlog_New Stdout "svc " 0) 0] exampleWorld)
         = Ok (fd, mkState [Log1.mkLogger (stdlog_New Stdout "svc " 0) 0] exampleWorld)
      /\ fi <> Log1.noOpPrint /\ fd <> Log1.noOpPrint
      /\ (exists text,
            Log1.invoke fi "up" []
              (mkState [Log1.mkLogger (stdlog_New Stdout "svc " 0) 0] exampleWorld)
            = Ok (tt, mkState [Log1.mkLogger (stdlog_New Stdout "svc " 0) 0]
                        (write Stdout text exampleWorld)))
      /\ (exists text,
            Log1.invoke fd "up" []
              (mkState [Log1.mkLogger (stdlog_New Stdout "svc " 0) 0] exampleWorld)
            = Ok (tt, mkState [Log1.mkLogger (stdlog_New Stdout "svc " 0) 0]
                        (write Stdout text exampleWorld))))
  /\ (exists (l : loc) (s' : State Logger),
        New (Cfg.mk "Error" "svc" 0) emptyState = Ok (l, s')
        /\ Info l ["x"] s' = Ok (noOpPrint, s')
        /\ Debug l ["x"] s' = Ok (noOpPrint, s')).
Proof.
  destruct legacy_gate_divergence as (_ & Hlegacy & Hnew). split.
  - exact (Hlegacy 0%nat
             (mkState [Log1.mkLogger (stdlog_New Stdout "svc " 0) 0] exampleWorld)
             (Log1.mkLogger (stdlog_New Stdout "svc " 0) 0) ["x"] "up" []
             eq_refl (Z.le_refl 0)).
  - exact (Hnew (Cfg.mk "Error" "svc" 0) emptyState ["x"] eq_refl).
Defined.

(** The same pair, run: [Info] writes in the legacy logger and not in the
    current one.  (The legacy closure passes its operand slice unspread,
    hence the report of an extra operand.) *)
Example legacy_Info_writes :
  (exists s',
      (let* l := Log1.New Stdout "svc" 0 in
       let* f := Log1.Info l ["x"] in
       Log1.invoke f "up" []) emptyState1 = Ok (tt, s')
      /\ stdout (world s')
         = ["svc [Info ][x]<up>%!(EXTRA []interface {}=[])" +:+ newline])
  /\ (exists s',
      (let* l := New (Cfg.mk "Error" "svc" 0) in
       let* f := Info l ["x"] in
       invoke f "up" []) emptyState = Ok (tt, s')
      /\ stdout (world s') = []).
Proof. split; eexists; split; reflexivity. Qed.

(* ================================================================= *)
(** ** [Fatal] *)

Lemma std_header (file : string) (line : N) (w : World) :
  formatHeader std file line w = dateText (clock w) +:+ clockText false (clock w).
Proof.
  unfold formatHeader, decorations. cbn [flag prefix std].
  repeat match goal with
         | |- context [has ?f ?b] =>
             let r := eval vm_compute in (has f b) in change (has f b) with r
         end.
  cbv beta iota. now rewrite !append_nil_r.
Qed.

(** C9 — Fatal bypass: for every operand list and every state, [Fatal]
    returns (it takes no logger and reads no slot, so no arming state can
    gate it: two states with the same world give the same world), leaves
    the logger structs alone, appends to standard error one record made of
    the standard logger's date and time, the operands as [Sprint] prints
    them, and a newline when they do not end in one (no tag, no bracketed
    context, no angle brackets are added), writes nothing to standard
    output, and sets a non-zero exit status. *)
Theorem Fatal_bypass (args : list Value) (s : State Logger) :
  exists s' code,
    Fatal args s = Ok (tt, s')
    /\ heap s' = heap s
    /\ exit_status (world s') = Some code /\ code <> 0
    /\ stderr (world s')
       = stderr (world s)
         ++ [dateText (clock (world s)) +:+ clockText false (clock (world s))
             +:+ Sprint args
             +:+ (if endsWithNewline (Sprint args) then "" else newline)]
    /\ stdout (world s') = stdout (world s)
    /\ (forall s2 : State Logger,
          world s2 = world s ->
          exists s2', Fatal args s2 = Ok (tt, s2') /\ world s2' = world s').
Proof.
  eexists. exists 1. split; [reflexivity|]. cbn [heap world].
  split; [reflexivity|]. split; [reflexivity|]. split; [lia|]. split.
  - cbn [stderr world Exit Output write out std]. now rewrite std_header, append_assoc.
  - split; [reflexivity|].
    intros s2 H2. eexists. split; [reflexivity|]. cbn [world]. now rewrite H2.
Qed.

Lemma Fatal_bypass_witness :
  exists s' code,
    Fatal [VString "shutdown"] emptyState = Ok (tt, s')
    /\ heap s' = heap emptyState
    /\ exit_status (world s') = Some code /\ code <> 0
    /\ stderr (world s')
       = stderr (world emptyState)
         ++ [dateText (clock (world emptyState))
             +:+ clockText false (clock (world emptyState))
             +:+ Sprint [VString "shutdown"]
             +:+ (if endsWithNewline (Sprint [VString "shutdown"])
                  then "" else newline)]
    /\ stdout (world s') = stdout (world emptyState)
    /\ (forall s2 : State Logger,
          world s2 = world emptyState ->
          exists s2', Fatal [VString "shutdown"] s2 = Ok (tt, s2')
                      /\ world s2' = world s').
Proof. exact (Fatal_bypass [VString "shutdown"] emptyState). Defined.

(** [Fatal("shutdown")] under the default standard logger, next to the
    line the Error entry point writes for the same message. *)
Example Fatal_shutdown :
  exists s',
    (let* l := New (Cfg.mk "" "svc" 0) in Fatal [VString "shutdown"]) emptyState
      = Ok (tt, s')
    /\ stderr (world s') = ["2009/01/23 01:23:23 shutdown" +:+ newline]
    /\ stdout (world s') = []
    /\ exit_status (world s') = Some 1.
Proof. eexists. repeat split. Qed.

(* ================================================================= *)
(** ** The entry points assign nothing *)

(** C10 — read-only entry points: whenever an entry point returns, it
    returns the very state it was called in, and no call of the closure it
    returned, in any state, changes the heap of logger structs (the three
    slots and the writer's destination, prefix and flags of every logger).
    On an allocated logger whose slots are its own, the entry point and the
    call of its closure do return. *)
Theorem entry_points_read_only (sev : Severity) (l : loc) (ctx : list string)
    (s : State Logger) :
  (forall f s',
      entry sev l ctx s = Ok (f, s') ->
      s' = s
      /\ forall format a s1 u s2,
           invoke f format a s1 = Ok (u, s2) -> heap s2 = heap s1)
  /\ (forall v format a,
        heap s !! l = Some v ->
        selfBound l v = true ->
        exists f s',
          entry sev l ctx s = Ok (f, s)
          /\ invoke f format a s = Ok (tt, s')
          /\ heap s' = heap s).
Proof.
  split.
  - intros f s' Hentry. split.
    + destruct sev; cbn [entry] in Hentry;
        unfold Error, Info, Debug, bind, load in Hentry;
        (destruct (heap s !! l) as [v|]; [|discriminate Hentry]);
        rewrite call_ok in Hentry; now injection Hentry as _ <-.
    + intros format a s1 u s2. apply invoke_heap.
  - intros v format a H Hown.
    assert (Hslot : ownSlot l (slot sev v) = true).
    { unfold selfBound in Hown.
      apply andb_true_iff in Hown as [Hown Hd].
      apply andb_true_iff in Hown as [He Hi]. now destruct sev. }
    rewrite (entry_ok sev l ctx s v H), call_ok.
    destruct (slot sev v) as [|l'].
    + exists noOpPrint, s. repeat split.
    + cbn in Hslot. apply Nat.eqb_eq in Hslot. subst l'.
      eexists. eexists. split; [reflexivity|].
      split; [apply (invoke_writePrint _ _ _ _ _ _ H)|]. reflexivity.
Qed.

Lemma entry_points_read_only_witness :
  exists f s',
    entry SevInfo 0%nat ["req-42"]
      (mkState [arm "Info" 0%nat (fresh (Cfg.mk "Info" "svc" 0))] exampleWorld)
    = Ok (f, mkState [arm "Info" 0%nat (fresh (Cfg.mk "Info" "svc" 0))] exampleWorld)
    /\ invoke f "started %s" [VString "job1"]
         (mkState [arm "Info" 0%nat (fresh (Cfg.mk "Info" "svc" 0))] exampleWorld)
       = Ok (tt, s')
    /\ heap s' = [arm "Info" 0%nat (fresh (Cfg.mk "Info" "svc" 0))].
Proof.
  exact (proj2 (entry_points_read_only SevInfo 0%nat ["req-42"]
                  (mkState [arm "Info" 0%nat (fresh (Cfg.mk "Info" "svc" 0))]
                           exampleWorld))
           (arm "Info" 0%nat (fresh (Cfg.mk "Info" "svc" 0)))
           "started %s" [VString "job1"] eq_refl eq_refl).
Defined.

(* ================================================================= *)
(** ** How [Level] calls compose *)

Lemma arm_active (level : string) (l : loc) (v : Logger) (sev : Severity) :
  active (slot sev (arm level l v))
  = active (slot sev v) || (sevRank sev <=? rank level)%nat.
Proof.
  unfold rank. case_level level; destruct sev; cbn;
    rewrite ?orb_true_r, ?orb_false_r; reflexivity.
Qed.

Lemma fold_arm_active (levels : list string) (l : loc) (v : Logger) (sev : Severity) :
  active (slot sev (fold_left (fun u level => arm level l u) levels v))
  = active (slot sev v) || (sevRank sev <=? topRank levels)%nat.
Proof.
  revert v. induction levels as [|level more IH]; intros v.
  - cbn. destruct sev; cbn; now rewrite orb_false_r.
  - cbn [fold_left topRank foldr]. rewrite IH, arm_active. fold (topRank more).
    rewrite <- orb_assoc. f_equal.
    destruct (Nat.leb_spec (sevRank sev) (rank level)),
             (Nat.leb_spec (sevRank sev) (topRank more)),
             (Nat.leb_spec (sevRank sev) (Nat.max (rank level) (topRank more)));
      try reflexivity; lia.
Qed.

Lemma fold_arm_log (levels : list string) (l : loc) (v : Logger) :
  log (fold_left (fun u level => arm level l u) levels v) = log v.
Proof.
  revert v. induction levels as [|level more IH]; intros v; [reflexivity|].
  cbn. now rewrite IH, arm_log.
Qed.

Lemma fold_arm_selfBound (levels : list string) (l : loc) (v : Logger) :
  selfBound l v = true ->
  selfBound l (fold_left (fun u level => arm level l u) levels v) = true.
Proof.
  revert v. induction levels as [|level more IH]; intros v H; [exact H|].
  cbn. apply IH. now apply arm_selfBound.
Qed.

Lemma arm_commute (a b : string) (l : loc) (v : Logger) :
  arm a l (arm b l v) = arm b l (arm a l v).
Proof.
  unfold arm.
  destruct (String.eqb a LevelDebug), (String.eqb a LevelInfo),
    (String.eqb a LevelError), (String.eqb b LevelDebug),
    (String.eqb b LevelInfo), (String.eqb b LevelError); reflexivity.
Qed.

(** [Levels] on an allocated logger, with the struct it leaves. *)
Lemma Levels_lookup (levels : list string) (l : loc) (s : State Logger) (v : Logger) :
  heap s !! l = Some v ->
  exists s',
    Levels l levels s = Ok (l, s')
    /\ heap s' !! l = Some (fold_left (fun u level => arm level l u) levels v)
    /\ world s' = world s
    /\ length (heap s') = length (heap s)
    /\ (forall l', l' <> l -> heap s' !! l' = heap s !! l').
Proof.
  intros H.
  exists (mkState (<[l := fold_left (fun u level => arm level l u) levels v]> (heap s))
                  (world s)).
  split; [exact (Levels_ok levels l s v H)|]. cbn [heap world].
  split; [apply list_lookup_insert_eq; eapply lookup_lt_Some, H|].
  split; [reflexivity|]. split; [apply length_insert|].
  intros l' Hne. now apply list_lookup_insert_ne.
Qed.

(** X1 — [Level] never disarms: on an allocated logger, after any run of
    [Level] calls with arbitrary strings, a slot that held the write path
    still holds it, the writer is the one the logger had, and the call
    returned its receiver. *)
Theorem Levels_never_disarm (levels : list string) (l : loc) (s : State Logger)
    (v : Logger) (sev : Severity) :
  heap s !! l = Some v ->
  active (slot sev v) = true ->
  exists s' v',
    Levels l levels s = Ok (l, s')
    /\ heap s' !! l = Some v'
    /\ active (slot sev v') = true
    /\ log v' = log v.
Proof.
  intros H Hact. destruct (Levels_lookup levels l s v H) as (s' & HL & Hv & _).
  exists s', (fold_left (fun u level => arm level l u) levels v).
  split; [exact HL|]. split; [exact Hv|].
  split; [|apply fold_arm_log]. now rewrite fold_arm_active, Hact.
Qed.

Lemma Levels_never_disarm_witness :
  exists s' v',
    Levels 0%nat ["Error"; "bogus"; "Info"]
      (mkState [arm "Debug" 0%nat (fresh (Cfg.mk "Debug" "svc" 0))] exampleWorld)
    = Ok (0%nat, s')
    /\ heap s' !! 0%nat = Some v'
    /\ active (slot SevDebug v') = true
    /\ log v' = log (arm "Debug" 0%nat (fresh (Cfg.mk "Debug" "svc" 0))).
Proof.
  exact (Levels_never_disarm ["Error"; "bogus"; "Info"] 0%nat
           (mkState [arm "Debug" 0%nat (fresh (Cfg.mk "Debug" "svc" 0))] exampleWorld)
           (arm "Debug" 0%nat (fresh (Cfg.mk "Debug" "svc" 0))) SevDebug
           eq_refl eq_refl).
Defined.

(** X2 — two [Level] calls commute: in either order they give the same
    result, also through a pointer that holds no logger. *)
Theorem Level_commute (a b : string) (l : loc) (s : State Logger) :
  (let* l' := Level l a in Level l' b) s = (let* l' := Level l b in Level l' a) s.
Proof.
  unfold bind. destruct (heap s !! l) as [v|] eqn:H.
  - pose proof (lookup_lt_Some _ _ _ H) as Hlt.
    rewrite !(Level_ok _ _ _ _ H).
    rewrite (Level_ok l b _ (arm a l v)) by now apply list_lookup_insert_eq.
    rewrite (Level_ok l a _ (arm b l v)) by now apply list_lookup_insert_eq.
    cbn [heap world]. now rewrite !list_insert_insert_eq, arm_commute.
  - rewrite !(Level_bad _ _ _ H).
    destruct (recognized a) eqn:Ha, (recognized b) eqn:Hb;
      rewrite ?(Level_bad _ _ _ H), ?Ha, ?Hb; reflexivity.
Qed.

(** X3 — the arming after construction and any run of [Level] calls is
    that of the highest name seen: [New] followed by [Level] calls never
    faults, and in the logger it returns a slot holds the write path exactly
    when its severity is at or below the highest of the configured level and
    the names passed; unrecognized names count for nothing.  The slots are
    bound to the logger itself, and the writer is standard output with the
    configured prefix followed by a space and the configured flags. *)
Theorem arming_is_highest_level (c : Cfg) (levels : list string) (s : State Logger) :
  exists (l : loc) (s' : State Logger) (v : Logger),
    (let* l := New c in Levels l levels) s = Ok (l, s')
    /\ heap s' !! l = Some v
    /\ (forall sev,
          active (slot sev v) = (sevRank sev <=? topRank (Cfg.Level c :: levels))%nat)
    /\ selfBound l v = true
    /\ log v = stdlog_New Stdout (Cfg.Prefix c +:+ " ") (Cfg.Flags c).
Proof.
  set (l := length (heap s)).
  set (v := fold_left (fun u level => arm level l u) (Cfg.Level c :: levels) (fresh c)).
  exists l, (mkState (heap s ++ [v]) (world s)), v.
  split; [|split; [apply alloc_lookup|]].
  - unfold bind. rewrite New_ok. fold l.
    rewrite (Levels_ok levels l _ (arm (Cfg.Level c) l (fresh c))) by apply alloc_lookup.
    cbn [heap world]. unfold l. now rewrite alloc_insert.
  - split; [|split].
    + intros sev. unfold v. rewrite fold_arm_active. now destruct sev.
    + now apply fold_arm_selfBound.
    + unfold v. now rewrite fold_arm_log.
Qed.

(* ================================================================= *)
(** ** What [New], [Level] and the entry points leave alone *)

(** X4 — [New] takes a fresh address and disturbs nothing: the pointer it
    returns held no logger before, every logger allocated before is found
    unchanged at its address, the heap grows by one struct, and nothing is
    written (the world is the same). *)
Theorem New_fresh_address (c : Cfg) (s : State Logger) :
  exists (l : loc) (s' : State Logger),
    New c s = Ok (l, s')
    /\ heap s !! l = None
    /\ is_Some (heap s' !! l)
    /\ length (heap s') = S (length (heap s))
    /\ (forall l' v, heap s !! l' = Some v -> heap s' !! l' = Some v)
    /\ world s' = world s.
Proof.
  do 2 eexists. split; [apply New_ok|]. cbn [heap world].
  split; [now apply lookup_ge_None|].
  split; [rewrite alloc_lookup; eauto|].
  split; [rewrite length_app; cbn; lia|].
  split; [|reflexivity].
  intros l' v H. now apply lookup_app_l_Some.
Qed.

(** X5 — whenever [Level] returns, with any string and any pointer, it
    returns its receiver, has written nothing (the world is the same), has
    kept the number of loggers, and has left every logger at another
    address as it was. *)
Theorem Level_frame (l : loc) (level : string) (s s' : State Logger) (r : loc) :
  Level l level s = Ok (r, s') ->
  r = l
  /\ world s' = world s
  /\ length (heap s') = length (heap s)
  /\ (forall l', l' <> l -> heap s' !! l' = heap s !! l').
Proof.
  destruct (heap s !! l) as [v|] eqn:H.
  - rewrite (Level_ok _ _ _ _ H). intros E. injection E as <- <-.
    cbn [heap world]. split; [reflexivity|]. split; [reflexivity|].
    split; [apply length_insert|].
    intros l' Hne. now apply list_lookup_insert_ne.
  - rewrite (Level_bad _ _ _ H). destruct (recognized level); [discriminate|].
    intros E. injection E as <- <-. repeat split.
Qed.

(** Two loggers: re-arming the second leaves the first as [New] made it. *)
Lemma Level_frame_witness :
  1%nat = 1%nat
  /\ world (mkState [fresh (Cfg.mk "" "a" 0);
                     arm "Debug" 1%nat (fresh (Cfg.mk "" "b" 0))] exampleWorld)
     = world (mkState [fresh (Cfg.mk "" "a" 0); fresh (Cfg.mk "" "b" 0)] exampleWorld)
  /\ length (heap (mkState [fresh (Cfg.mk "" "a" 0);
                            arm "Debug" 1%nat (fresh (Cfg.mk "" "b" 0))] exampleWorld))
     = length (heap (mkState [fresh (Cfg.mk "" "a" 0); fresh (Cfg.mk "" "b" 0)]
                             exampleWorld))
  /\ (forall l', l' <> 1%nat ->
        heap (mkState [fresh (Cfg.mk "" "a" 0);
                       arm "Debug" 1%nat (fresh (Cfg.mk "" "b" 0))] exampleWorld) !! l'
        = heap (mkState [fresh (Cfg.mk "" "a" 0); fresh (Cfg.mk "" "b" 0)]
                        exampleWorld) !! l').
Proof.
  exact (Level_frame 1%nat "Debug"
           (mkState [fresh (Cfg.mk "" "a" 0); fresh (Cfg.mk "" "b" 0)] exampleWorld)
           (mkState [fresh (Cfg.mk "" "a" 0);
                     arm "Debug" 1%nat (fresh (Cfg.mk "" "b" 0))] exampleWorld)
           1%nat eq_refl).
Defined.

(** X6 — through a pointer that holds no logger the three entry points
    fault, and so does [Level] with a recognized name, at its first
    assignment; [Level] with any other name reads nothing through the
    pointer and returns it, with the state as it was. *)
Theorem bad_pointer (l : loc) (s : State Logger) :
  heap s !! l = None ->
  (forall sev ctx, entry sev l ctx s = Fault BadPointer)
  /\ (forall level,
        Level l level s = if recognized level then Fault BadPointer else Ok (l, s)).
Proof.
  intros H. split.
  - intros sev ctx. destruct sev; cbn [entry];
      unfold Error, Info, Debug, bind; now rewrite (load_bad _ _ H).
  - intros level. now apply Level_bad.
Qed.

Lemma bad_pointer_witness :
  (forall sev ctx, entry sev 0%nat ctx emptyState = Fault BadPointer)
  /\ (forall level,
        Level 0%nat level emptyState
        = if recognized level then Fault BadPointer else Ok (0%nat, emptyState)).
Proof. exact (bad_pointer 0%nat emptyState eq_refl). Defined.

(* ================================================================= *)
(** ** One record per call *)

Lemma endsWithNewline_nonempty (s : string) : endsWithNewline s = true -> s <> "".
Proof. now destruct s. Qed.

(** What [Output] writes ends in a newline, whatever the text. *)
Lemma Output_record_ends (h s : string) :
  endsWithNewline (h +:+ s +:+ (if endsWithNewline s then "" else newline)) = true.
Proof.
  destruct (endsWithNewline s) eqn:E.
  - rewrite append_nil_r, endsWithNewline_app; [exact E|].
    now apply endsWithNewline_nonempty.
  - rewrite <- append_assoc. now rewrite endsWithNewline_app.
Qed.

(** X7 — whatever the template and the operands (inside the modelled
    fragment of [fmt] or not), calling the closure of an armed slot of a
    logger that writes to standard output appends exactly one record to
    standard output, and that record ends in a newline; standard error, the
    exit status and the heap of loggers are as before. *)
Theorem armed_call_writes_one_record (sev : Severity) (l : loc) (ctx : list string)
    (format : string) (a : list Value) (s : State Logger) (v : Logger) :
  heap s !! l = Some v ->
  slot sev v = logWriteOf l ->
  out (log v) = Stdout ->
  exists f s' record,
    entry sev l ctx s = Ok (f, s)
    /\ invoke f format a s = Ok (tt, s')
    /\ stdout (world s') = stdout (world s) ++ [record]
    /\ endsWithNewline record = true
    /\ stderr (world s') = stderr (world s)
    /\ exit_status (world s') = exit_status (world s)
    /\ heap s' = heap s.
Proof.
  intros H Hslot Hout. do 3 eexists. split.
  - rewrite (entry_ok _ _ _ _ _ H), Hslot. apply call_ok.
  - split; [apply (invoke_writePrint _ _ _ _ _ _ H)|].
    cbn [heap world]. unfold Output. rewrite Hout. cbn [write stdout stderr exit_status].
    split; [reflexivity|]. split; [apply Output_record_ends|]. repeat split.
Qed.

Lemma armed_call_writes_one_record_witness :
  exists f s' record,
    entry SevError 0%nat ["a"]
      (mkState [arm "Error" 0%nat (fresh (Cfg.mk "Error" "svc" 0))] exampleWorld)
    = Ok (f, mkState [arm "Error" 0%nat (fresh (Cfg.mk "Error" "svc" 0))] exampleWorld)
    /\ invoke f "%08.3f" [VInt 1]
         (mkState [arm "Error" 0%nat (fresh (Cfg.mk "Error" "svc" 0))] exampleWorld)
       = Ok (tt, s')
    /\ stdout (world s') = stdout exampleWorld ++ [record]
    /\ endsWithNewline record = true
    /\ stderr (world s') = stderr exampleWorld
    /\ exit_status (world s') = exit_status exampleWorld
    /\ heap s' = [arm "Error" 0%nat (fresh (Cfg.mk "Error" "svc" 0))].
Proof.
  exact (armed_call_writes_one_record SevError 0%nat ["a"] "%08.3f" [VInt 1]
           (mkState [arm "Error" 0%nat (fresh (Cfg.mk "Error" "svc" 0))] exampleWorld)
           (arm "Error" 0%nat (fresh (Cfg.mk "Error" "svc" 0)))
           eq_refl eq_refl eq_refl).
Defined.

(* ================================================================= *)
(** ** The bracketed contexts *)

Lemma length_append (s t : string) :
  String.length (s +:+ t) = (String.length s + String.length t)%nat.
Proof. induction s as [|c s IH]; cbn; [reflexivity | now rewrite IH]. Qed.

Lemma append_inj_r (s t u : string) : s +:+ u = t +:+ u -> s = t.
Proof.
  revert t. induction s as [|c s IH]; intros [|c' t] E.
  - reflexivity.
  - apply (f_equal String.length) in E. rewrite !length_append in E. cbn in E. lia.
  - apply (f_equal String.length) in E. rewrite !length_append in E. cbn in E. lia.
  - cbn in E. injection E as -> E. f_equal. now apply IH.
Qed.

Lemma barFree_bar (a y : string) : barFree (a +:+ String "|" y) = false.
Proof.
  induction a as [|c a IH]; cbn; [reflexivity|]. rewrite IH. apply andb_false_r.
Qed.

(** Two bar-free heads in front of a bar are the same head. *)
Lemma bar_split (a b x y : string) :
  barFree a = true -> barFree b = true ->
  a +:+ String "|" x = b +:+ String "|" y -> a = b /\ x = y.
Proof.
  revert b. induction a as [|c a IH]; intros [|c' b] Ha Hb E; cbn in *.
  - injection E as E. now split.
  - injection E as <- _. discriminate Hb.
  - injection E as -> _. discriminate Ha.
  - injection E as -> E.
    apply andb_true_iff in Ha as [_ Ha]. apply andb_true_iff in Hb as [_ Hb].
    destruct (IH b Ha Hb E) as [-> ->]. now split.
Qed.

Lemma Join_cons2 (e e' : string) (rest : list string) (sep : string) :
  Join (e :: e' :: rest) sep = e +:+ sep +:+ Join (e' :: rest) sep.
Proof. reflexivity. Qed.

Lemma Join_injective (ctx1 ctx2 : list string) :
  ctx1 <> [] -> ctx2 <> [] ->
  forallb barFree ctx1 = true -> forallb barFree ctx2 = true ->
  Join ctx1 "|" = Join ctx2 "|" -> ctx1 = ctx2.
Proof.
  revert ctx2. induction ctx1 as [|e r IH]; intros [|e' r'] N1 N2 H1 H2 E;
    try contradiction.
  cbn [forallb] in H1, H2.
  apply andb_true_iff in H1 as [He H1]. apply andb_true_iff in H2 as [He' H2].
  destruct r as [|e1 r], r' as [|e1' r'].
  - cbn in E. now subst.
  - change (Join [e] "|") with e in E. rewrite Join_cons2 in E. subst e.
    cbn [append] in He. now rewrite barFree_bar in He.
  - change (Join [e'] "|") with e' in E. rewrite Join_cons2 in E. subst e'.
    cbn [append] in He'. now rewrite barFree_bar in He'.
  - rewrite !Join_cons2 in E. cbn [append] in E.
    destruct (bar_split _ _ _ _ He He' E) as [-> E'].
    f_equal. now apply IH.
Qed.

(** X8 — the contexts can be read back from the prefix [logWrite]
    builds: for one level tag, two non-empty context lists whose strings
    contain no ['|'] give the same closure only when they are the same
    list, in the same order. *)
Theorem logWrite_contexts_injective (l : loc) (level : string)
    (ctx1 ctx2 : list string) (s : State Logger) :
  ctx1 <> [] -> ctx2 <> [] ->
  forallb barFree ctx1 = true -> forallb barFree ctx2 = true ->
  logWrite l level ctx1 s = logWrite l level ctx2 s ->
  ctx1 = ctx2.
Proof.
  intros N1 N2 H1 H2 E. unfold logWrite, ret in E. injection E as E.
  apply String.app_inj, (String.app_inj "[") in E.
  apply append_inj_r in E. now apply Join_injective.
Qed.

Lemma logWrite_contexts_injective_witness :
  logWrite 0%nat ErrStr ["a"; "b"] emptyState = logWrite 0%nat ErrStr ["a"; "b"] emptyState
  /\ ["a"; "b"] = ["a"; "b"].
Proof.
  split; [reflexivity|].
  exact (logWrite_contexts_injective 0%nat ErrStr ["a"; "b"] ["a"; "b"] emptyState
           ltac:(discriminate) ltac:(discriminate) eq_refl eq_refl eq_refl).
Defined.

(** Without the two conditions the contexts are not recoverable. *)
Example contexts_not_escaped :
  Join ["a|b"] "|" = Join ["a"; "b"] "|" /\ Join [] "|" = Join [""] "|".
Proof. split; reflexivity. Qed.

(* ================================================================= *)
(** ** Templates that do not close *)

Lemma doPrintf_literal_operands (lit : string) (a : list Value) :
  literal lit = true -> doPrintf lit a = Some (lit +:+ extraArgs a).
Proof.
  intros H. rewrite <- (append_nil_r lit) at 1.
  now rewrite (doPrintf_literal_head _ _ _ H).
Qed.

Lemma extraArgs_no_newline (t : string) (a : list Value) :
  endsWithNewline (t +:+ ">" +:+ extraArgs a) = false.
Proof.
  destruct a as [|v a].
  - cbn [extraArgs]. now rewrite endsWithNewline_app.
  - cbn [extraArgs].
    replace (t +:+ ">" +:+ "%!(EXTRA "
               +:+ String.concat ", " (map extraOperand (v :: a)) +:+ ")")
      with ((t +:+ ">" +:+ "%!(EXTRA "
               +:+ String.concat ", " (map extraOperand (v :: a))) +:+ ")")
      by now string_assoc.
    now rewrite endsWithNewline_app.
Qed.

(** X9 — a template without directives does not hide its operands: with
    contexts and template free of ['%'], the record is the header, the tag,
    the bracketed contexts, the template between angle brackets, then the
    report of every operand ([%!(EXTRA type=value, ...)], nothing when there
    is no operand) behind the closing bracket, and a newline. *)
Theorem literal_template_reports_operands (sev : Severity) (l : loc)
    (s : State Logger) (v : Logger) (P : string) (flags : Z) (ctx : list string)
    (format : string) (a : list Value) :
  heap s !! l = Some v ->
  log v = stdlog_New Stdout (P +:+ " ") flags ->
  slot sev v = logWriteOf l ->
  forallb literal ctx = true ->
  literal format = true ->
  exists f,
    entry sev l ctx s = Ok (f, s)
    /\ invoke f format a s =
       Ok (tt, mkState (heap s)
                 (write Stdout
                    (lineHeader P flags
                       (decorations flags (callerFile (world s)) 132 (world s))
                     +:+ tag sev +:+ "[" +:+ Join ctx "|" +:+ "]"
                     +:+ "<" +:+ format +:+ ">" +:+ extraArgs a +:+ newline)
                    (world s))).
Proof.
  intros H Hlog Hslot Hctx Hlit. eexists. split.
  - rewrite (entry_ok _ _ _ _ _ H), Hslot. apply call_ok.
  - rewrite (invoke_writePrint _ _ _ _ _ _ H). unfold Sprintf.
    rewrite doPrintf_literal_operands.
    + unfold Output. rewrite Hlog, formatHeader_layout. cbn [out stdlog_New].
      do 4 f_equal.
      replace (((tag sev +:+ "[" +:+ Join ctx "|" +:+ "]") +:+ "<" +:+ format +:+ ">")
               +:+ extraArgs a)
        with ((tag sev +:+ "[" +:+ Join ctx "|" +:+ "]" +:+ "<" +:+ format)
              +:+ ">" +:+ extraArgs a)
        by now string_assoc.
      rewrite extraArgs_no_newline. now string_assoc.
    + repeat apply literal_app; try reflexivity; try assumption.
      * apply tag_literal.
      * now apply Join_literal.
Qed.

Lemma literal_template_reports_operands_witness :
  exists f,
    entry SevError 0%nat ["db"]
      (mkState [arm "Error" 0%nat (fresh (Cfg.mk "Error" "svc" 0))] exampleWorld)
    = Ok (f, mkState [arm "Error" 0%nat (fresh (Cfg.mk "Error" "svc" 0))] exampleWorld)
    /\ invoke f "disk" [VInt 1; VString "x"]
         (mkState [arm "Error" 0%nat (fresh (Cfg.mk "Error" "svc" 0))] exampleWorld)
       = Ok (tt, mkState [arm "Error" 0%nat (fresh (Cfg.mk "Error" "svc" 0))]
                   (write Stdout
                      ("svc ER[db]<disk>%!(EXTRA int=1, string=x)" +:+ newline)
                      exampleWorld)).
Proof.
  exact (literal_template_reports_operands SevError 0%nat
           (mkState [arm "Error" 0%nat (fresh (Cfg.mk "Error" "svc" 0))] exampleWorld)
           (arm "Error" 0%nat (fresh (Cfg.mk "Error" "svc" 0)))
           "svc" 0 ["db"] "disk" [VInt 1; VString "x"]
           eq_refl eq_refl eq_refl eq_refl eq_refl).
Defined.

(** X10 — a template that ends in a lone ['%'] loses its closing bracket:
    the ['>'] that [logWrite]'s closure appends is read as the verb.  With
    contexts and the rest of the template free of ['%'] and no operands, the
    line ends in [%!>(MISSING)]. *)
Theorem trailing_percent_takes_bracket (sev : Severity) (l : loc)
    (s : State Logger) (v : Logger) (P : string) (flags : Z) (ctx : list string)
    (body : string) :
  heap s !! l = Some v ->
  log v = stdlog_New Stdout (P +:+ " ") flags ->
  slot sev v = logWriteOf l ->
  forallb literal ctx = true ->
  literal body = true ->
  exists f,
    entry sev l ctx s = Ok (f, s)
    /\ invoke f (body +:+ "%") [] s =
       Ok (tt, mkState (heap s)
                 (write Stdout
                    (lineHeader P flags
                       (decorations flags (callerFile (world s)) 132 (world s))
                     +:+ tag sev +:+ "[" +:+ Join ctx "|" +:+ "]"
                     +:+ "<" +:+ body +:+ "%!>(MISSING)" +:+ newline)
                    (world s))).
Proof.
  intros H Hlog Hslot Hctx Hlit. eexists. split.
  - rewrite (entry_ok _ _ _ _ _ H), Hslot. apply call_ok.
  - rewrite (invoke_writePrint _ _ _ _ _ _ H). unfold Sprintf.
    replace ((tag sev +:+ "[" +:+ Join ctx "|" +:+ "]") +:+ "<" +:+ (body +:+ "%") +:+ ">")
      with ((tag sev +:+ "[" +:+ Join ctx "|" +:+ "]" +:+ "<" +:+ body) +:+ "%>")
      by now string_assoc.
    rewrite doPrintf_literal_head.
    + change (doPrintf "%>" []) with (Some "%!>(MISSING)").
      cbn [fmap option_fmap option_map].
      unfold Output. rewrite Hlog, formatHeader_layout. cbn [out stdlog_New].
      do 4 f_equal.
      replace ((tag sev +:+ "[" +:+ Join ctx "|" +:+ "]" +:+ "<" +:+ body)
               +:+ "%!>(MISSING)")
        with ((tag sev +:+ "[" +:+ Join ctx "|" +:+ "]" +:+ "<" +:+ body
               +:+ "%!>(MISSING") +:+ ")")
        by now string_assoc.
      rewrite endsWithNewline_app by discriminate. cbn [endsWithNewline].
      now string_assoc.
    + repeat apply literal_app; try reflexivity; try assumption.
      * apply tag_literal.
      * now apply Join_literal.
Qed.

Lemma trailing_percent_takes_bracket_witness :
  exists f,
    entry SevError 0%nat ["db"]
      (mkState [arm "Error" 0%nat (fresh (Cfg.mk "Error" "svc" 0))] exampleWorld)
    = Ok (f, mkState [arm "Error" 0%nat (fresh (Cfg.mk "Error" "svc" 0))] exampleWorld)
    /\ invoke f ("disk at 100" +:+ "%") []
         (mkState [arm "Error" 0%nat (fresh (Cfg.mk "Error" "svc" 0))] exampleWorld)
       = Ok (tt, mkState [arm "Error" 0%nat (fresh (Cfg.mk "Error" "svc" 0))]
                   (write Stdout
                      ("svc ER[db]<disk at 100%!>(MISSING)" +:+ newline)
                      exampleWorld)).
Proof.
  exact (trailing_percent_takes_bracket SevError 0%nat
           (mkState [arm "Error" 0%nat (fresh (Cfg.mk "Error" "svc" 0))] exampleWorld)
           (arm "Error" 0%nat (fresh (Cfg.mk "Error" "svc" 0)))
           "svc" 0 ["db"] "disk at 100"
           eq_refl eq_refl eq_refl eq_refl eq_refl).
Defined.

(* ================================================================= *)
(** ** The superseded implementation, further *)

Lemma tag1_literal (sev : Severity) : literal (tag1 sev) = true.
Proof. now destruct sev. Qed.

Lemma entry1_ok (sev : Severity) (l : loc) (ctx : list string)
    (s : State Log1.Logger) (v : Log1.Logger) :
  heap s !! l = Some v ->
  entry1 sev l ctx s
  = Ok (if Log1.LevelError <=? Log1.level v
        then Log1.writePrint l (tag1 sev +:+ "[" +:+ Join ctx "|" +:+ "]")
        else Log1.noOpPrint, s).
Proof.
  intros H. destruct sev; cbn [entry1 tag1];
    unfold Log1.Error, Log1.Info, Log1.Debug, bind; rewrite (load_ok _ _ _ H);
    now destruct (Log1.LevelError <=? Log1.level v).
Qed.

Lemma Log1_invoke_writePrint (l : loc) (prefix format : string) (a : list Value)
    (s : State Log1.Logger) (v : Log1.Logger) :
  heap s !! l = Some v ->
  Log1.invoke (Log1.writePrint l prefix) format a s =
  Ok (tt, mkState (heap s)
            (Output (Log1.log v) 103
               (Sprintf (sprintfOther (world s)) (prefix +:+ "<" +:+ format +:+ ">")
                        [VSlice a])
               (world s))).
Proof.
  intros H. unfold Log1.invoke, bind. now rewrite (load_ok _ _ _ H).
Qed.

(** X11 — the legacy gate is one for all severities: on an allocated
    legacy logger with a level below [LevelError] (a negative level), Error,
    Info and Debug all return the discarding closure, which leaves every
    state as it is; with any other level all three return the closure of the
    write path, each with its own tag. *)
Theorem Log1_one_gate (l : loc) (s : State Log1.Logger) (v : Log1.Logger) :
  heap s !! l = Some v ->
  (Log1.level v < Log1.LevelError ->
     (forall sev ctx, entry1 sev l ctx s = Ok (Log1.noOpPrint, s))
     /\ (forall format a (s1 : State Log1.Logger),
           Log1.invoke Log1.noOpPrint format a s1 = Ok (tt, s1)))
  /\ (Log1.LevelError <= Log1.level v ->
        forall sev ctx,
          entry1 sev l ctx s
          = Ok (Log1.writePrint l (tag1 sev +:+ "[" +:+ Join ctx "|" +:+ "]"), s)).
Proof.
  intros H. split.
  - intros Hlt. split; [|reflexivity]. intros sev ctx.
    rewrite (entry1_ok _ _ _ _ _ H).
    now destruct (Z.leb_spec Log1.LevelError (Log1.level v)); [lia|].
  - intros Hle sev ctx. rewrite (entry1_ok _ _ _ _ _ H).
    now destruct (Z.leb_spec Log1.LevelError (Log1.level v)); [|lia].
Qed.

Lemma Log1_one_gate_witness :
  (forall sev ctx,
      entry1 sev 0%nat ctx
        (mkState [Log1.mkLogger (stdlog_New Stdout "svc " 0) (-1)] exampleWorld)
      = Ok (Log1.noOpPrint,
            mkState [Log1.mkLogger (stdlog_New Stdout "svc " 0) (-1)] exampleWorld))
  /\ (forall sev ctx,
        entry1 sev 0%nat ctx
          (mkState [Log1.mkLogger (stdlog_New Stdout "svc " 0) 2] exampleWorld)
        = Ok (Log1.writePrint 0%nat (tag1 sev +:+ "[" +:+ Join ctx "|" +:+ "]"),
              mkState [Log1.mkLogger (stdlog_New Stdout "svc " 0) 2] exampleWorld)).
Proof.
  split.
  - exact (proj1 (proj1 (Log1_one_gate 0%nat
                    (mkState [Log1.mkLogger (stdlog_New Stdout "svc " 0) (-1)]
                             exampleWorld)
                    (Log1.mkLogger (stdlog_New Stdout "svc " 0) (-1)) eq_refl)
                  eq_refl)).
  - exact (proj2 (Log1_one_gate 0%nat
                    (mkState [Log1.mkLogger (stdlog_New Stdout "svc " 0) 2]
                             exampleWorld)
                    (Log1.mkLogger (stdlog_New Stdout "svc " 0) 2) eq_refl)
                  ltac:(discriminate)).
Defined.

(** X12 — a legacy logger writes at every severity as soon as it is
    constructed: [New] never faults, takes a fresh address, leaves the
    loggers allocated before and the world alone, stores the writer it was
    given with the prefix followed by a space, and leaves the level at
    [LevelError], at which Error, Info and Debug all return the closure of
    the write path. *)
Theorem Log1_New_writes_everything (w : Writer) (P : string) (flags : Z)
    (s : State Log1.Logger) :
  exists (l : loc) (s' : State Log1.Logger),
    Log1.New w P flags s = Ok (l, s')
    /\ heap s !! l = None
    /\ heap s' !! l
       = Some (Log1.mkLogger (stdlog_New w (P +:+ " ") flags) Log1.LevelError)
    /\ (forall l' v, heap s !! l' = Some v -> heap s' !! l' = Some v)
    /\ world s' = world s
    /\ (forall sev ctx,
          entry1 sev l ctx s'
          = Ok (Log1.writePrint l (tag1 sev +:+ "[" +:+ Join ctx "|" +:+ "]"), s')).
Proof.
  exists (length (heap s)),
    (mkState (heap s ++ [Log1.mkLogger (stdlog_New w (P +:+ " ") flags) 0]) (world s)).
  split; [reflexivity|]. cbn [heap world].
  split; [now apply lookup_ge_None|].
  split; [apply alloc_lookup|].
  split; [intros l' v H; now apply lookup_app_l_Some|].
  split; [reflexivity|].
  intros sev ctx.
  now rewrite (entry1_ok sev _ ctx _ (Log1.mkLogger (stdlog_New w (P +:+ " ") flags) 0))
    by apply alloc_lookup.
Qed.

(** X13 — the legacy [Level] overwrites: on an allocated logger it
    returns its receiver, stores the given level and keeps the writer,
    writes nothing and leaves the other loggers alone; of two calls in a row
    only the last counts; and the stored level alone decides what the entry
    points return afterwards, so a lower level silences them again. *)
Theorem Log1_Level_overwrites (l : loc) (m n : Z) (s : State Log1.Logger)
    (v : Log1.Logger) :
  heap s !! l = Some v ->
  exists s',
    Log1.Level l n s = Ok (l, s')
    /\ heap s' !! l = Some (Log1.mkLogger (Log1.log v) n)
    /\ world s' = world s
    /\ (forall l', l' <> l -> heap s' !! l' = heap s !! l')
    /\ (let* l' := Log1.Level l m in Log1.Level l' n) s = Log1.Level l n s
    /\ (forall sev ctx,
          entry1 sev l ctx s'
          = Ok (if Log1.LevelError <=? n
                then Log1.writePrint l (tag1 sev +:+ "[" +:+ Join ctx "|" +:+ "]")
                else Log1.noOpPrint, s')).
Proof.
  intros H. pose proof (lookup_lt_Some _ _ _ H) as Hlt.
  assert (HL : forall k, Log1.Level l k s
                = Ok (l, mkState (<[l := Log1.mkLogger (Log1.log v) k]> (heap s)) (world s))).
  { intros k. unfold Log1.Level, bind. now rewrite (store_ok _ _ _ _ H). }
  eexists. split; [apply HL|]. cbn [heap world].
  split; [now apply list_lookup_insert_eq|]. split; [reflexivity|].
  split; [intros l' Hne; now apply list_lookup_insert_ne|]. split.
  - unfold bind at 1. rewrite (HL m), (HL n).
    unfold Log1.Level, bind.
    rewrite (store_ok _ _ _ (Log1.mkLogger (Log1.log v) m))
      by (cbn [heap]; now apply list_lookup_insert_eq).
    cbn [heap world]. now rewrite list_insert_insert_eq.
  - intros sev ctx.
    now rewrite (entry1_ok sev l ctx _ (Log1.mkLogger (Log1.log v) n))
      by (cbn [heap]; now apply list_lookup_insert_eq).
Qed.

Lemma Log1_Level_overwrites_witness :
  exists s',
    Log1.Level 0%nat (-1)
      (mkState [Log1.mkLogger (stdlog_New Stdout "svc " 0) 0] exampleWorld)
    = Ok (0%nat, s')
    /\ heap s' !! 0%nat
       = Some (Log1.mkLogger
                 (Log1.log (Log1.mkLogger (stdlog_New Stdout "svc " 0) 0)) (-1))
    /\ world s'
       = world (mkState [Log1.mkLogger (stdlog_New Stdout "svc " 0) 0] exampleWorld)
    /\ (forall l', l' <> 0%nat ->
          heap s' !! l'
          = heap (mkState [Log1.mkLogger (stdlog_New Stdout "svc " 0) 0]
                          exampleWorld) !! l')
    /\ (let* l' := Log1.Level 0%nat 2 in Log1.Level l' (-1))
         (mkState [Log1.mkLogger (stdlog_New Stdout "svc " 0) 0] exampleWorld)
       = Log1.Level 0%nat (-1)
           (mkState [Log1.mkLogger (stdlog_New Stdout "svc " 0) 0] exampleWorld)
    /\ (forall sev ctx,
          entry1 sev 0%nat ctx s'
          = Ok (if Log1.LevelError <=? -1
                then Log1.writePrint 0%nat (tag1 sev +:+ "[" +:+ Join ctx "|" +:+ "]")
                else Log1.noOpPrint, s')).
Proof.
  exact (Log1_Level_overwrites 0%nat 2 (-1)
           (mkState [Log1.mkLogger (stdlog_New Stdout "svc " 0) 0] exampleWorld)
           (Log1.mkLogger (stdlog_New Stdout "svc " 0) 0) eq_refl).
Defined.

Lemma tail_bracket_no_newline (t : string) :
  endsWithNewline (t +:+ ">") = false.
Proof. now rewrite endsWithNewline_app. Qed.

(** X14 — in the legacy implementation a template without directives
    always carries a report of the operand slice: the closure hands the
    slice to [Printf] as one operand, so with contexts and template free of
    ['%'] the record is the header, the tag, the bracketed contexts, the
    template between angle brackets, then
    [%!(EXTRA []interface {}=[...])] with the operands printed between the
    brackets (nothing between them when there are none), and a newline. *)
Theorem Log1_literal_template_reports_slice (sev : Severity) (l : loc)
    (s : State Log1.Logger) (v : Log1.Logger) (ctx : list string)
    (format : string) (a : list Value) :
  heap s !! l = Some v ->
  Log1.LevelError <= Log1.level v ->
  forallb literal ctx = true ->
  literal format = true ->
  exists f,
    entry1 sev l ctx s = Ok (f, s)
    /\ Log1.invoke f format a s =
       Ok (tt, mkState (heap s)
                 (write (out (Log1.log v))
                    (formatHeader (Log1.log v) (callerFile (world s)) 103 (world s)
                     +:+ tag1 sev +:+ "[" +:+ Join ctx "|" +:+ "]"
                     +:+ "<" +:+ format +:+ ">"
                     +:+ "%!(EXTRA []interface {}=["
                     +:+ spaced (map (printValue "v") a) +:+ "])" +:+ newline)
                    (world s))).
Proof.
  intros H Hle Hctx Hlit. eexists. split.
  - rewrite (entry1_ok _ _ _ _ _ H).
    destruct (Z.leb_spec Log1.LevelError (Log1.level v)); [reflexivity|lia].
  - rewrite (Log1_invoke_writePrint _ _ _ _ _ _ H). unfold Sprintf.
    rewrite doPrintf_literal_operands.
    + unfold Output. do 4 f_equal.
      replace (((tag1 sev +:+ "[" +:+ Join ctx "|" +:+ "]") +:+ "<" +:+ format +:+ ">")
               +:+ extraArgs [VSlice a])
        with ((tag1 sev +:+ "[" +:+ Join ctx "|" +:+ "]" +:+ "<" +:+ format)
              +:+ ">" +:+ extraArgs [VSlice a])
        by now string_assoc.
      rewrite extraArgs_no_newline. cbn [extraArgs map String.concat].
      unfold extraOperand. cbn [typeName printValue]. now string_assoc.
    + repeat apply literal_app; try reflexivity; try assumption.
      * apply tag1_literal.
      * now apply Join_literal.
Qed.

Lemma Log1_literal_template_reports_slice_witness :
  exists f,
    entry1 SevInfo 0%nat ["x"]
      (mkState [Log1.mkLogger (stdlog_New Stdout "svc " 0) 0] exampleWorld)
    = Ok (f, mkState [Log1.mkLogger (stdlog_New Stdout "svc " 0) 0] exampleWorld)
    /\ Log1.invoke f "up" []
         (mkState [Log1.mkLogger (stdlog_New Stdout "svc " 0) 0] exampleWorld)
       = Ok (tt, mkState [Log1.mkLogger (stdlog_New Stdout "svc " 0) 0]
                   (write Stdout
                      ("svc [Info ][x]<up>%!(EXTRA []interface {}=[])" +:+ newline)
                      exampleWorld)).
Proof.
  exact (Log1_literal_template_reports_slice SevInfo 0%nat
           (mkState [Log1.mkLogger (stdlog_New Stdout "svc " 0) 0] exampleWorld)
           (Log1.mkLogger (stdlog_New Stdout "svc " 0) 0) ["x"] "up" []
           eq_refl (Z.le_refl 0) eq_refl eq_refl).
Defined.

(** X15 — in the legacy implementation the one directive of a template
    prints all the operands together: with contexts free of ['%'] and a
    template made of text, one plain verb and text, the record is the
    header, the tag, the bracketed contexts and, between angle brackets, the
    leading text, the operands printed with that verb as one list between
    square brackets separated by spaces, and the trailing text.  The
    operands are never matched to directives one by one. *)
Theorem Log1_single_directive_prints_slice (sev : Severity) (l : loc)
    (s : State Log1.Logger) (v : Log1.Logger) (ctx : list string)
    (before after : string) (verb : ascii) (a : list Value) :
  heap s !! l = Some v ->
  Log1.LevelError <= Log1.level v ->
  forallb literal ctx = true ->
  literal before = true -> literal after = true ->
  plainVerb verb = true -> Ascii.eqb verb "%" = false ->
  exists f,
    entry1 sev l ctx s = Ok (f, s)
    /\ Log1.invoke f (before +:+ String "%" (String verb after)) a s =
       Ok (tt, mkState (heap s)
                 (write (out (Log1.log v))
                    (formatHeader (Log1.log v) (callerFile (world s)) 103 (world s)
                     +:+ tag1 sev +:+ "[" +:+ Join ctx "|" +:+ "]"
                     +:+ "<" +:+ before
                     +:+ "[" +:+ spaced (map (printValue verb) a) +:+ "]"
                     +:+ after +:+ ">" +:+ newline)
                    (world s))).
Proof.
  intros H Hle Hctx Hb Ha Hverb Hpct. eexists. split.
  - rewrite (entry1_ok _ _ _ _ _ H).
    destruct (Z.leb_spec Log1.LevelError (Log1.level v)); [reflexivity|lia].
  - rewrite (Log1_invoke_writePrint _ _ _ _ _ _ H). unfold Sprintf.
    replace ((tag1 sev +:+ "[" +:+ Join ctx "|" +:+ "]") +:+ "<"
             +:+ (before +:+ String "%" (String verb after)) +:+ ">")
      with ((tag1 sev +:+ "[" +:+ Join ctx "|" +:+ "]" +:+ "<" +:+ before)
            +:+ String "%" (String verb (after +:+ ">")))
      by now string_assoc.
    rewrite doPrintf_literal_head.
    + rewrite doPrintf_cons. cbn [Ascii.eqb Bool.eqb negb].
      rewrite Hpct, Hverb. cbn [negb].
      rewrite (doPrintf_literal (after +:+ ">"))
        by (apply literal_app; [exact Ha|reflexivity]).
      cbn [fmap option_fmap option_map printValue].
      unfold Output. do 4 f_equal.
      replace ((tag1 sev +:+ "[" +:+ Join ctx "|" +:+ "]" +:+ "<" +:+ before)
               +:+ ("[" +:+ spaced (map (printValue verb) a) +:+ "]")
               +:+ after +:+ ">")
        with ((tag1 sev +:+ "[" +:+ Join ctx "|" +:+ "]" +:+ "<" +:+ before
               +:+ "[" +:+ spaced (map (printValue verb) a) +:+ "]" +:+ after)
              +:+ ">")
        by now string_assoc.
      rewrite tail_bracket_no_newline. now string_assoc.
    + repeat apply literal_app; try reflexivity; try assumption.
      * apply tag1_literal.
      * now apply Join_literal.
Qed.

Lemma Log1_single_directive_prints_slice_witness :
  exists f,
    entry1 SevError 0%nat ["db"]
      (mkState [Log1.mkLogger (stdlog_New Stdout "svc " 0) 0] exampleWorld)
    = Ok (f, mkState [Log1.mkLogger (stdlog_New Stdout "svc " 0) 0] exampleWorld)
    /\ Log1.invoke f ("lost " +:+ String "%" (String "d" " of 9")) [VInt 3; VInt 4]
         (mkState [Log1.mkLogger (stdlog_New Stdout "svc " 0) 0] exampleWorld)
       = Ok (tt, mkState [Log1.mkLogger (stdlog_New Stdout "svc " 0) 0]
                   (write Stdout ("svc [Error][db]<lost [3 4] of 9>" +:+ newline)
                      exampleWorld)).
Proof.
  exact (Log1_single_directive_prints_slice SevError 0%nat
           (mkState [Log1.mkLogger (stdlog_New Stdout "svc " 0) 0] exampleWorld)
           (Log1.mkLogger (stdlog_New Stdout "svc " 0) 0) ["db"]
           "lost " " of 9" "d" [VInt 3; VInt 4]
           eq_refl (Z.le_refl 0) eq_refl eq_refl eq_refl eq_refl eq_refl).
Defined.

(* ================================================================= *)
(** ** What [Fatal] prints *)

Lemma concat_empty_cons (x : string) (xs : list string) :
  String.concat "" (x :: xs) = x +:+ String.concat "" xs.
Proof. destruct xs; cbn; [now rewrite append_nil_r | reflexivity]. Qed.

Lemma doPrint_strings (prev first : bool) (ss : list string) :
  doPrint prev first (map VString ss) = String.concat "" ss.
Proof.
  revert prev first. induction ss as [|x xs IH]; intros prev first; [reflexivity|].
  cbn [map doPrint isString negb andb printValue fmtString isChar].
  rewrite andb_false_r. cbn [andb]. rewrite IH, concat_empty_cons.
  reflexivity.
Qed.

Lemma doPrint_ints_rest (ns : list Z) :
  doPrint false false (map VInt ns)
  = String.concat "" (map (fun n => " " +:+ decimal n) ns).
Proof.
  induction ns as [|n ns IH]; [reflexivity|].
  cbn [map doPrint isString negb andb]. rewrite IH, concat_empty_cons.
  now string_assoc.
Qed.

(** X16 — what [Fatal] writes for its operands: string operands are
    written one after the other with nothing between them, integer operands
    in decimal with one space between them; in both cases behind the date
    and time on standard error, with a newline added when the text does not
    end in one. *)
Theorem Fatal_operand_text (s : State Logger) :
  (forall ss : list string,
      exists s',
        Fatal (map VString ss) s = Ok (tt, s')
        /\ stderr (world s')
           = stderr (world s)
             ++ [dateText (clock (world s)) +:+ clockText false (clock (world s))
                 +:+ String.concat "" ss
                 +:+ (if endsWithNewline (String.concat "" ss) then "" else newline)])
  /\ (forall (n : Z) (ns : list Z),
        exists s',
          Fatal (map VInt (n :: ns)) s = Ok (tt, s')
          /\ stderr (world s')
             = stderr (world s)
               ++ [dateText (clock (world s)) +:+ clockText false (clock (world s))
                   +:+ decimal n
                   +:+ String.concat "" (map (fun k => " " +:+ decimal k) ns)
                   +:+ (if endsWithNewline
                             (decimal n
                              +:+ String.concat "" (map (fun k => " " +:+ decimal k) ns))
                        then "" else newline)]).
Proof.
  split.
  - intros ss. eexists. split; [reflexivity|].
    cbn [stderr world Exit Output write out std]. rewrite std_header.
    unfold Sprint. rewrite doPrint_strings. now rewrite append_assoc.
  - intros n ns. eexists. split; [reflexivity|].
    cbn [stderr world Exit Output write out std]. rewrite std_header.
    unfold Sprint. cbn [map doPrint isString negb andb].
    rewrite doPrint_ints_rest. cbn [printValue fmtInteger].
    now string_assoc.
Qed.

(* ================================================================= *)
(** ** A closure kept across [Level] calls *)

(** X17 — a closure decides when it is made, not when it is called: on
    an allocated logger whose slots are its own, the closure an entry point
    returns writes, after any later run of [Level] calls on that logger,
    exactly what it would have written before them.  So a closure taken
    while its slot was unarmed stays silent after the slot is armed. *)
Theorem closure_survives_Levels (sev : Severity) (l : loc) (ctx : list string)
    (levels : list string) (format : string) (a : list Value)
    (s : State Logger) (v : Logger) :
  heap s !! l = Some v ->
  selfBound l v = true ->
  exists f s1 s2,
    entry sev l ctx s = Ok (f, s)
    /\ invoke f format a s = Ok (tt, s1)
    /\ (let* _ := Levels l levels in invoke f format a) s = Ok (tt, s2)
    /\ world s2 = world s1.
Proof.
  intros H Hown.
  assert (Hslot : ownSlot l (slot sev v) = true).
  { unfold selfBound in Hown.
    apply andb_true_iff in Hown as [Hown Hd].
    apply andb_true_iff in Hown as [He Hi]. now destruct sev. }
  destruct (Levels_lookup levels l s v H) as (s' & HL & Hv' & Hw & _).
  rewrite (entry_ok sev l ctx s v H), call_ok.
  destruct (slot sev v) as [|l'].
  - exists noOpPrint, s, s'. split; [reflexivity|]. split; [reflexivity|].
    unfold bind. rewrite HL. split; [reflexivity|exact Hw].
  - cbn in Hslot. apply Nat.eqb_eq in Hslot. subst l'.
    do 3 eexists. split; [reflexivity|].
    split; [apply (invoke_writePrint _ _ _ _ _ _ H)|].
    unfold bind. rewrite HL, (invoke_writePrint _ _ _ _ _ _ Hv').
    split; [reflexivity|]. cbn [world]. now rewrite fold_arm_log, Hw.
Qed.

(** A logger constructed at "Error": the Debug closure taken then stays
    silent after the logger is raised to "Debug". *)
Lemma closure_survives_Levels_witness :
  exists f s1 s2,
    entry SevDebug 0%nat ["x"]
      (mkState [arm "Error" 0%nat (fresh (Cfg.mk "Error" "svc" 0))] exampleWorld)
    = Ok (f, mkState [arm "Error" 0%nat (fresh (Cfg.mk "Error" "svc" 0))] exampleWorld)
    /\ invoke f "val=%d" [VInt 7]
         (mkState [arm "Error" 0%nat (fresh (Cfg.mk "Error" "svc" 0))] exampleWorld)
       = Ok (tt, s1)
    /\ (let* _ := Levels 0%nat ["Debug"] in invoke f "val=%d" [VInt 7])
         (mkState [arm "Error" 0%nat (fresh (Cfg.mk "Error" "svc" 0))] exampleWorld)
       = Ok (tt, s2)
    /\ world s2 = world s1.
Proof.
  exact (closure_survives_Levels SevDebug 0%nat ["x"] ["Debug"] "val=%d" [VInt 7]
           (mkState [arm "Error" 0%nat (fresh (Cfg.mk "Error" "svc" 0))] exampleWorld)
           (arm "Error" 0%nat (fresh (Cfg.mk "Error" "svc" 0))) eq_refl eq_refl).
Defined.

(* ================================================================= *)
(** ** The flags [log.go] declares *)

Lemma low_flags_no_msgprefix (flags : Z) :
  0 <= flags < 64 -> has flags Lmsgprefix = false.
Proof.
  intros Hr. unfold has, Lmsgprefix.
  replace (Z.land flags 64) with 0; [reflexivity|]. symmetry.
  apply Z.bits_inj'. intros n Hn. rewrite Z.land_spec, Z.bits_0.
  change 64 with (2 ^ 6). rewrite Z.pow2_bits_eqb by lia.
  destruct (Z.eqb_spec 6 n) as [<-|Hne]; [|apply andb_false_r].
  rewrite andb_true_r. destruct (Z.eq_dec flags 0) as [->|Hnz].
  - apply Z.bits_0.
  - apply Z.bits_above_log2; [lia|]. apply Z.log2_lt_pow2; lia.
Qed.

(** X18 — no combination of the six flags [log.go] declares (a value
    from 0 to 63) moves the prefix: the header of a logger made by [New]
    starts with the configured prefix and a space, and the date, time and
    file decorations follow it. *)
Theorem declared_flags_keep_prefix_first (c : Cfg) (s : State Logger)
    (file : string) (line : N) (w : World) :
  0 <= Cfg.Flags c < 64 ->
  exists (l : loc) (s' : State Logger) (v : Logger),
    New c s = Ok (l, s')
    /\ heap s' !! l = Some v
    /\ formatHeader (log v) file line w
       = Cfg.Prefix c +:+ " " +:+ decorations (Cfg.Flags c) file line w.
Proof.
  intros Hr. do 3 eexists. split; [apply New_ok|]. split; [apply alloc_lookup|].
  rewrite arm_log. cbn [log fresh]. rewrite formatHeader_layout.
  unfold lineHeader. now rewrite (low_flags_no_msgprefix _ Hr).
Qed.

Lemma declared_flags_keep_prefix_first_witness :
  exists (l : loc) (s' : State Logger) (v : Logger),
    New (Cfg.mk "Info" "svc" (Z.lor LstdFlags (Z.lor Lshortfile LUTC))) emptyState
    = Ok (l, s')
    /\ heap s' !! l = Some v
    /\ formatHeader (log v) "/go/src/log/log.go" 132 exampleWorld
       = Cfg.Prefix (Cfg.mk "Info" "svc" (Z.lor LstdFlags (Z.lor Lshortfile LUTC)))
         +:+ " "
         +:+ decorations
               (Cfg.Flags (Cfg.mk "Info" "svc" (Z.lor LstdFlags (Z.lor Lshortfile LUTC))))
               "/go/src/log/log.go" 132 exampleWorld.
Proof.
  apply (declared_flags_keep_prefix_first
           (Cfg.mk "Info" "svc" (Z.lor LstdFlags (Z.lor Lshortfile LUTC)))
           emptyState "/go/src/log/log.go" 132 exampleWorld).
  vm_compute. split; [discriminate | reflexivity].
Defined.

(** The header of that logger, written out. *)
Example header_with_declared_flags :
  formatHeader (stdlog_New Stdout "svc " (Z.lor LstdFlags (Z.lor Lshortfile LUTC)))
    "/go/src/log/log.go" 132 exampleWorld
  = "svc 2009/01/22 23:23:23 log.go:132: ".
Proof. reflexivity. Qed.
